(** * Payload Local API examples: route handlers, server actions, preview routes

    A shallow embedding of the example glue code of the Next.js application:

    - [app/(my-app)/api/examples/posts/route.ts]       (GET, POST)
    - [app/(my-app)/api/examples/products/route.ts]    (GET, POST)
    - [examples/local-api/server-actions/actions.ts]   (post and product actions)
    - [app/(my-app)/next/preview/route.ts]             (GET)
    - [app/(my-app)/next/exit-draft/route.ts]          (GET)
    - [lib/payload/client.ts], [lib/payload/operations.ts]

    JavaScript values are a small inductive type; the handlers are written in
    a state-and-exception monad that also records the calls they make on the
    Local API handle, so that statements such as "the store is not called" or
    "one write per id, in list order" are statements about the recorded
    trace.  The CMS itself (the Local API handle, token verification, the
    number printer) is external to the repository and is a parameter of the
    development. *)

From Stdlib Require Import List String Ascii ZArith QArith Bool Arith Lia.
From Stdlib Require DecimalString.
Import ListNotations.
Local Open Scope string_scope.
Local Open Scope list_scope.

(* ===================================================================== *)
(** ** JavaScript values *)
(* ===================================================================== *)

(** A JavaScript Number.  Finite values are kept as exact rationals (every
    double is one); [-0] is identified with [0], which no operation used by
    the handlers (truthiness, [<], [>]) distinguishes. *)
Inductive number : Type :=
  | NaN
  | Fin (q : Q)
  | Inf (negative : bool).

Definition of_Z (z : Z) : number := Fin (inject_Z z).
Definition of_nat (n : nat) : number := of_Z (Z.of_nat n).

(** [a < b] on Numbers: false as soon as one side is NaN. *)
Definition num_lt (a b : number) : bool :=
  match a, b with
  | NaN, _ | _, NaN => false
  | Fin x, Fin y => negb (Qle_bool y x)
  | Fin _, Inf neg => negb neg
  | Inf neg, Fin _ => neg
  | Inf n1, Inf n2 => n1 && negb n2
  end.

Definition num_gt (a b : number) : bool := num_lt b a.

#[local] Set Warnings "-register-all".

Inductive jsval : Type :=
  | VUndefined
  | VNull
  | VBool (b : bool)
  | VNum (n : number)
  | VStr (s : string)
  | VArr (items : list jsval)
  | VObj (fields : list (string * jsval)).

(** ToBoolean. *)
Definition truthy (v : jsval) : bool :=
  match v with
  | VUndefined | VNull => false
  | VBool b => b
  | VNum NaN => false
  | VNum (Fin q) => negb (Qeq_bool q 0)
  | VNum (Inf _) => true
  | VStr s => negb (s =? "")
  | VArr _ | VObj _ => true
  end.

(** [a || b] on values. *)
Definition js_or (a b : jsval) : jsval := if truthy a then a else b.

(** Own-property lookup in an object literal (first binding wins; object
    literals built by the handlers never repeat a key). *)
Fixpoint assoc {A : Type} (k : string) (l : list (string * A)) : option A :=
  match l with
  | [] => None
  | (k', v) :: rest => if k' =? k then Some v else assoc k rest
  end.

(** An Error object as thrown by the store or by the runtime. *)
Record JsError : Type := mkError { message : string }.

Inductive result (A : Type) : Type :=
  | Ok (a : A)
  | Throw (e : JsError).
Arguments Ok {A} a.
Arguments Throw {A} e.

Definition type_error_reading (v : jsval) (k : string) : JsError :=
  mkError ("Cannot read properties of "
           ++ (match v with VNull => "null" | _ => "undefined" end)
           ++ " (reading '" ++ k ++ "')").

(** Property read [v.k].  Reading from [undefined] or [null] throws a
    TypeError; a missing property is [undefined].  Of the inherited
    properties only [length] (arrays and strings) is read by the handlers. *)
Definition get_prop (v : jsval) (k : string) : result jsval :=
  match v with
  | VUndefined | VNull => Throw (type_error_reading v k)
  | VObj fs => Ok (match assoc k fs with Some x => x | None => VUndefined end)
  | VArr l => Ok (if k =? "length" then VNum (of_nat (List.length l)) else VUndefined)
  | VStr s => Ok (if k =? "length" then VNum (of_nat (String.length s)) else VUndefined)
  | VBool _ | VNum _ => Ok VUndefined
  end.

(** [{ ...a, ...b }] restricted to the use the handlers make of it: the keys
    of the two literals are distinct. *)
Definition spread (a b : list (string * jsval)) : jsval := VObj (a ++ b).

(* ===================================================================== *)
(** ** URLSearchParams and cookies *)
(* ===================================================================== *)

(** [searchParams.get(name)]: the first value bound to [name], or [null]. *)
Definition searchParams_get (q : list (string * string)) (name : string)
  : option string := assoc name q.

(** The value as the handler sees it: a string or [null]. *)
Definition param_val (p : option string) : jsval :=
  match p with Some s => VStr s | None => VNull end.

(** Truthiness of a parameter, as tested by [if (category)]. *)
Definition given (p : option string) : bool := truthy (param_val p).

(* ===================================================================== *)
(** ** parseInt *)
(* ===================================================================== *)

(** Strings are byte strings: the UTF-8 encoding of the JavaScript string.
    The white space [parseInt] skips is the standard's WhiteSpace and
    LineTerminator: the ASCII characters U+0009 to U+000D and U+0020, and,
    beyond ASCII, U+00A0, U+1680, U+2000 to U+200A, U+2028, U+2029, U+202F,
    U+205F, U+3000 and U+FEFF, which take two or three bytes. *)
Definition is_ws (c : ascii) : bool :=
  let n := nat_of_ascii c in
  (((9 <=? n) && (n <=? 13)) || (n =? 32))%nat.

(** U+00A0 is [C2 A0]. *)
Definition is_ws2 (c1 c2 : ascii) : bool :=
  ((nat_of_ascii c1 =? 194) && (nat_of_ascii c2 =? 160))%nat.

(** U+1680 is [E1 9A 80]; U+2000 to U+200A are [E2 80 80] to [E2 80 8A];
    U+2028, U+2029 and U+202F are [E2 80 A8], [E2 80 A9] and [E2 80 AF];
    U+205F is [E2 81 9F]; U+3000 is [E3 80 80]; U+FEFF is [EF BB BF]. *)
Definition is_ws3 (c1 c2 c3 : ascii) : bool :=
  let a := nat_of_ascii c1 in
  let b := nat_of_ascii c2 in
  let c := nat_of_ascii c3 in
  (((a =? 225) && (b =? 154) && (c =? 128))
   || ((a =? 226) && (b =? 128)
       && (((128 <=? c) && (c <=? 138)) || (c =? 168) || (c =? 169) || (c =? 175)))
   || ((a =? 226) && (b =? 129) && (c =? 159))
   || ((a =? 227) && (b =? 128) && (c =? 128))
   || ((a =? 239) && (b =? 187) && (c =? 191)))%nat.

Fixpoint trim_start (s : string) : string :=
  match s with
  | String c1 r1 =>
      if is_ws c1 then trim_start r1
      else
        match r1 with
        | String c2 r2 =>
            if is_ws2 c1 c2 then trim_start r2
            else
              match r2 with
              | String c3 r3 => if is_ws3 c1 c2 c3 then trim_start r3 else s
              | EmptyString => s
              end
        | EmptyString => s
        end
  | EmptyString => s
  end.

(** Value of a character as a digit of the given radix (10 or 16). *)
Definition digit_val (radix : Z) (c : ascii) : option Z :=
  let n := Z.of_nat (nat_of_ascii c) in
  let d :=
    (if (48 <=? n) && (n <=? 57) then Some (n - 48)
     else if (97 <=? n) && (n <=? 102) then Some (n - 87)
     else if (65 <=? n) && (n <=? 70) then Some (n - 55)
     else None)%Z in
  match d with
  | Some v => if (v <? radix)%Z then Some v else None
  | None => None
  end.

(** The longest prefix of digits, read left to right; [None] when the first
    character is not a digit. *)
Fixpoint read_digits (radix : Z) (acc : option Z) (s : string) : option Z :=
  match s with
  | EmptyString => acc
  | String c rest =>
      match digit_val radix c with
      | Some d =>
          read_digits radix
            (Some (match acc with Some a => (a * radix + d)%Z | None => d end)) rest
      | None => acc
      end
  end.

Definition strip_sign (s : string) : Z * string :=
  match s with
  | String "-" rest => ((-1)%Z, rest)
  | String "+" rest => (1%Z, rest)
  | _ => (1%Z, s)
  end.

Definition strip_hex_prefix (s : string) : Z * string :=
  match s with
  | String "0" (String "x" rest) => (16%Z, rest)
  | String "0" (String "X" rest) => (16%Z, rest)
  | _ => (10%Z, s)
  end.

(** The Number for an integer: the nearest double, a tie going to the even
    significand of 53 bits, and Infinity when that is 2^1024 or more (from
    2^1024 - 2^970 on).  Integers below 2^53 in size are their own double. *)
Definition round_to_double (z : Z) : number :=
  let a := Z.abs z in
  if (a <? 2 ^ 53)%Z then of_Z z
  else
    let e := (Z.log2 a - 52)%Z in
    let q := Z.shiftr a e in
    let r := (a - Z.shiftl q e)%Z in
    let half := Z.shiftl 1 (e - 1) in
    let q' := if (half <? r)%Z || ((r =? half)%Z && Z.odd q)
              then (q + 1)%Z else q in
    let m := Z.shiftl q' e in
    if (m <? 2 ^ 1024)%Z then of_Z (if (z <? 0)%Z then - m else m)%Z
    else Inf (z <? 0)%Z.

(** [parseInt(s)] with no radix argument: leading white space is skipped,
    then a sign, then [0x] or [0X] selects radix 16, and the longest prefix
    of digits is read; the result is the Number for its value, NaN when
    there is no digit.  (For more than 20 decimal digits the standard lets
    an engine round from the first 20; the engines round the exact value.) *)
Definition parseInt (s : string) : number :=
  let '(sign, s1) := strip_sign (trim_start s) in
  let '(radix, s2) := strip_hex_prefix s1 in
  match read_digits radix None s2 with
  | Some z => round_to_double (sign * z)
  | None => NaN
  end.

(** [searchParams.get(name) || dflt]: the default replaces [null] and the
    empty string. *)
Definition param_or (p : option string) (dflt : string) : string :=
  match js_or (param_val p) (VStr dflt) with
  | VStr s => s
  | _ => dflt
  end.

(** ToString of a [string | null]. *)
Definition param_str (p : option string) : string :=
  match p with Some s => s | None => "null" end.

(** [p !== null && p !== undefined]. *)
Definition not_nullish (p : option string) : bool :=
  match p with Some _ => true | None => false end.

(** [v === 'lit'] against a string literal. *)
Definition is_str (v : jsval) (lit : string) : bool :=
  match v with VStr s => s =? lit | _ => false end.

(* ===================================================================== *)
(** ** The external collaborators *)
(* ===================================================================== *)

(** Methods of the Local API handle used by the examples. *)
Inductive method : Type := find | findByID | create | update | delete.

(** The CMS: an opaque store behind [getPayload] and the handle's methods.
    Each call returns normally or throws, and may change the store. *)
Class LocalAPI : Type := {
  Store : Type;
  getPayload : Store -> result unit * Store;
  payload : method -> jsval -> Store -> result jsval * Store;
  payload_secret : string
}.

(** Built-ins of the runtime and of the token library that the handlers call
    and whose results they pass on unchanged. *)
Class Runtime : Type := {
  parseFloat : string -> number;
  number_to_string : number -> string;
  jwt_verify : string -> string -> result jsval
}.

(* ===================================================================== *)
(** ** The handler monad: world state, exceptions, recorded effects *)
(* ===================================================================== *)

Inductive event : Type :=
  | Init (r : result unit)
  | Call (m : method) (args : jsval) (r : result jsval)
  | Revalidate (path : string)
  | ConsoleError (label : string) (e : JsError)
  | LoggerError (label : string) (e : JsError)
  | DraftMode (enable : bool).

Section Monad.
Context {api : LocalAPI}.

(** What a request can observe and change: the store, the process-wide
    draft-mode flag, and the clock ([new Date().toISOString()]). *)
Record World : Type := mkWorld {
  store : Store;
  draft : bool;
  clock : string
}.

Definition M (A : Type) : Type := World -> result A * World * list event.

Definition ret {A} (a : A) : M A := fun w => (Ok a, w, []).

Definition throw {A} (e : JsError) : M A := fun w => (Throw e, w, []).

Definition bind {A B} (m : M A) (k : A -> M B) : M B :=
  fun w =>
    match m w with
    | (Ok a, w1, l1) => let '(r, w2, l2) := k a w1 in (r, w2, l1 ++ l2)
    | (Throw e, w1, l1) => (Throw e, w1, l1)
    end.

(** [try { m } catch (error) { h error }]. *)
Definition try_catch {A} (m : M A) (h : JsError -> M A) : M A :=
  fun w =>
    match m w with
    | (Ok a, w1, l1) => (Ok a, w1, l1)
    | (Throw e, w1, l1) => let '(r, w2, l2) := h e w1 in (r, w2, l1 ++ l2)
    end.

Definition lift {A} (r : result A) : M A := fun w => (r, w, []).

Definition emit (ev : event) : M unit := fun w => (Ok tt, w, [ev]).

(** [await getPayloadClient()] / [await getPayload({config})]. *)
Definition getPayloadClient : M unit :=
  fun w =>
    let '(r, s) := getPayload (store w) in
    (r, mkWorld s (draft w) (clock w), [Init r]).

(** [await payload.m(args)]. *)
Definition payload_call (m : method) (args : jsval) : M jsval :=
  fun w =>
    let '(r, s) := payload m args (store w) in
    (r, mkWorld s (draft w) (clock w), [Call m args r]).

Definition revalidatePath (path : string) : M unit := emit (Revalidate path).

Definition console_error (label : string) (e : JsError) : M unit :=
  emit (ConsoleError label e).

Definition logger_error (label : string) (e : JsError) : M unit :=
  emit (LoggerError label e).

(** [await draftMode().then(d => d.enable())] and [d.disable()]. *)
Definition draftMode_set (b : bool) : M unit :=
  fun w => (Ok tt, mkWorld (store w) b (clock w), [DraftMode b]).

Definition Date_now_ISO : M string := fun w => (Ok (clock w), w, []).

End Monad.

Declare Scope js_scope.
Delimit Scope js_scope with js.
Notation "x <- m ;; k" := (bind m (fun x => k))
  (at level 61, m at next level, right associativity) : js_scope.
Notation "m ;;; k" := (bind m (fun _ => k))
  (at level 61, right associativity) : js_scope.
Local Open Scope js_scope.

(** [for (const x of xs) { acc = body x acc }] with an accumulator for the
    variables the loop body mutates. *)
Fixpoint for_of {api : LocalAPI} {A S : Type}
    (xs : list A) (body : A -> S -> M S) (acc : S) : M S :=
  match xs with
  | [] => ret acc
  | x :: rest => acc' <- body x acc ;; for_of rest body acc'
  end.

(** [error.message || fallback]. *)
Definition message_or (e : JsError) (fallback : string) : string :=
  match js_or (VStr (message e)) (VStr fallback) with
  | VStr s => s
  | _ => fallback
  end.

(** Property read inside a handler. *)
Definition prop {api : LocalAPI} (v : jsval) (k : string) : M jsval :=
  lift (get_prop v k).

(** ToString, as applied by a template literal. *)
Fixpoint to_string {rt : Runtime} (v : jsval) : string :=
  match v with
  | VUndefined => "undefined"
  | VNull => "null"
  | VBool b => if b then "true" else "false"
  | VNum n => number_to_string n
  | VStr s => s
  | VArr l =>
      let elem x := match x with VUndefined | VNull => "" | _ => to_string x end in
      String.concat "," (List.map elem l)
  | VObj _ => "[object Object]"
  end.

(* ===================================================================== *)
(** ** Requests and responses *)
(* ===================================================================== *)

Record request : Type := mkRequest {
  query : list (string * string);     (* the URL's search parameters *)
  cookies : list (string * string);
  json : result jsval                 (* outcome of [await request.json()] *)
}.

Inductive response : Type :=
  | JsonResponse (status : nat) (body : jsval)   (* NextResponse.json(body, {status}) *)
  | TextResponse (status : nat) (text : string)  (* new Response(text, {status}) *)
  | Redirect (path : string).                    (* redirect(path) *)

Definition NextResponse_json (body : list (string * jsval)) : response :=
  JsonResponse 200 (VObj body).

Definition failure_response (status : nat) (e : JsError) (fallback : string)
  : response :=
  JsonResponse status
    (VObj [("success", VBool false); ("error", VStr (message_or e fallback))]).

(** A field predicate [{ field: { op: v } }]. *)
Definition cond (field op : string) (v : jsval) : jsval :=
  VObj [(field, VObj [(op, v)])].

(** [arr.push(x)] under [if (c)]. *)
Definition push_if (c : bool) (x : jsval) (arr : list jsval) : list jsval :=
  if c then arr ++ [x] else arr.

(* ===================================================================== *)
(** ** lib/payload/operations.ts *)
(* ===================================================================== *)

(** Each route handler and each server action is one [try]/[catch]: for a
    handler [h], [h_try] is its [try] block and [h] wraps it with the
    [catch] block. *)

Section Handlers.
Context {api : LocalAPI} {rt : Runtime}.

Definition findWithPagination (collection : string) (page limit : number)
  : M jsval :=
  getPayloadClient ;;;
  payload_call find
    (VObj [("collection", VStr collection);
           ("page", VNum page);
           ("limit", VNum limit)]).

(** The [pagination] object of a GET response, read off the store's result. *)
Definition pagination_of (result : jsval) : M jsval :=
  page <- prop result "page" ;;
  limit <- prop result "limit" ;;
  totalPages <- prop result "totalPages" ;;
  totalDocs <- prop result "totalDocs" ;;
  ret (VObj [("page", page); ("limit", limit);
             ("totalPages", totalPages); ("totalDocs", totalDocs)]).

(* ===================================================================== *)
(** ** api/examples/posts/route.ts *)
(* ===================================================================== *)

(** Lines 57-77 of the GET handler: the array [whereConditions] after the
    five conditional pushes. *)
Definition posts_whereConditions
    (category status featured author tag : option string) : list jsval :=
  let whereConditions := [] in
  let whereConditions :=
    push_if (given category)
      (cond "category" "equals" (param_val category)) whereConditions in
  let whereConditions :=
    push_if (given status)
      (cond "status" "equals" (param_val status)) whereConditions in
  let whereConditions :=
    push_if (not_nullish featured)
      (cond "featured" "equals" (VBool (is_str (param_val featured) "true")))
      whereConditions in
  let whereConditions :=
    push_if (given author)
      (cond "author" "contains" (param_val author)) whereConditions in
  let whereConditions :=
    push_if (given tag)
      (cond "tags.tag" "equals" (param_val tag)) whereConditions in
  whereConditions.

Definition posts_GET_try (req : request) : M response :=
  let searchParams := query req in
  let page := parseInt (param_or (searchParams_get searchParams "page") "1") in
  let limit := parseInt (param_or (searchParams_get searchParams "limit") "10") in
  let category := searchParams_get searchParams "category" in
  let status := searchParams_get searchParams "status" in
  let featured := searchParams_get searchParams "featured" in
  let author := searchParams_get searchParams "author" in
  let tag := searchParams_get searchParams "tag" in
  let search := searchParams_get searchParams "search" in
  if negb (given category) && negb (given status) && negb (given featured)
     && negb (given author) && negb (given tag) && negb (given search)
  then
    result <- findWithPagination "posts" page limit ;;
    docs <- prop result "docs" ;;
    pagination <- pagination_of result ;;
    ret (NextResponse_json
           [("success", VBool true);
            ("method", VStr "Simple Pagination");
            ("data", docs);
            ("pagination", pagination)])
  else
    getPayloadClient ;;;
    let whereConditions :=
      posts_whereConditions category status featured author tag in
    if given search then
      result <- payload_call find
        (VObj [("collection", VStr "posts");
               ("where",
                VObj [("and",
                       VArr (whereConditions ++
                             [VObj [("or",
                                     VArr [cond "title" "contains" (param_val search);
                                           cond "excerpt" "contains" (param_val search);
                                           cond "content" "contains" (param_val search)])]]))]);
               ("page", VNum page);
               ("limit", VNum limit);
               ("sort", VStr "-publishedDate")]) ;;
      docs <- prop result "docs" ;;
      pagination <- pagination_of result ;;
      ret (NextResponse_json
             [("success", VBool true);
              ("method", VStr "Complex Query with Search");
              ("data", docs);
              ("pagination", pagination);
              ("filters",
               VObj [("category", param_val category);
                     ("status", param_val status);
                     ("featured", param_val featured);
                     ("author", param_val author);
                     ("tag", param_val tag);
                     ("search", param_val search)])])
    else
      result <- payload_call find
        (VObj [("collection", VStr "posts");
               ("where", VObj [("and", VArr whereConditions)]);
               ("page", VNum page);
               ("limit", VNum limit);
               ("sort", VStr "-publishedDate")]) ;;
      docs <- prop result "docs" ;;
      pagination <- pagination_of result ;;
      ret (NextResponse_json
             [("success", VBool true);
              ("method", VStr "Complex AND Query");
              ("data", docs);
              ("pagination", pagination);
              ("filters",
               VObj [("category", param_val category);
                     ("status", param_val status);
                     ("featured", param_val featured);
                     ("author", param_val author);
                     ("tag", param_val tag)])]).

Definition posts_GET (req : request) : M response :=
  try_catch
    (posts_GET_try req)
    (fun error =>
       console_error "Error fetching posts:" error ;;;
       ret (failure_response 500 error "Failed to fetch posts")).

(** [!body.a || !body.b || ...]: the fields are read left to right and the
    reading stops at the first falsy one. *)
Fixpoint some_falsy (body : jsval) (fields : list string) : M bool :=
  match fields with
  | [] => ret false
  | f :: rest =>
      v <- prop body f ;;
      if negb (truthy v) then ret true else some_falsy body rest
  end.

Definition posts_required : list string :=
  ["title"; "slug"; "content"; "excerpt"; "author"; "category"].

Definition posts_POST_try (req : request) : M response :=
  body <- lift (json req) ;;
  missing <- some_falsy body posts_required ;;
  if missing then
    ret (JsonResponse 400
           (VObj [("success", VBool false);
                  ("error", VStr "Missing required fields: title, slug, content, excerpt, author, category")]))
  else
    getPayloadClient ;;;
    post <- payload_call create
      (VObj [("collection", VStr "posts"); ("data", body)]) ;;
    ret (NextResponse_json
           [("success", VBool true);
            ("method", VStr "Create Document");
            ("data", post)]).

Definition posts_POST (req : request) : M response :=
  try_catch
    (posts_POST_try req)
    (fun error =>
       console_error "Error creating post:" error ;;;
       ret (failure_response 500 error "Failed to create post")).

(* ===================================================================== *)
(** ** api/examples/products/route.ts *)
(* ===================================================================== *)

(** Lines 57-76 of the GET handler: [whereConditions] after the conditional
    pushes; [priceCondition] is the object filled in by the two assignments. *)
Definition products_whereConditions
    (category inStock featured minPrice maxPrice : option string) : list jsval :=
  let whereConditions := [] in
  let whereConditions :=
    push_if (given category)
      (cond "category" "equals" (param_val category)) whereConditions in
  let whereConditions :=
    push_if (not_nullish inStock)
      (cond "inStock" "equals" (VBool (is_str (param_val inStock) "true")))
      whereConditions in
  let whereConditions :=
    push_if (not_nullish featured)
      (cond "featured" "equals" (VBool (is_str (param_val featured) "true")))
      whereConditions in
  let whereConditions :=
    if given minPrice || given maxPrice then
      let priceCondition := [] in
      let priceCondition :=
        if given minPrice
        then priceCondition ++
             [("greater_than_equal", VNum (parseFloat (param_str minPrice)))]
        else priceCondition in
      let priceCondition :=
        if given maxPrice
        then priceCondition ++
             [("less_than_equal", VNum (parseFloat (param_str maxPrice)))]
        else priceCondition in
      whereConditions ++ [VObj [("price", VObj priceCondition)]]
    else whereConditions in
  whereConditions.

Definition products_GET_try (req : request) : M response :=
  let searchParams := query req in
  let page := parseInt (param_or (searchParams_get searchParams "page") "1") in
  let limit := parseInt (param_or (searchParams_get searchParams "limit") "10") in
  let category := searchParams_get searchParams "category" in
  let inStock := searchParams_get searchParams "inStock" in
  let featured := searchParams_get searchParams "featured" in
  let minPrice := searchParams_get searchParams "minPrice" in
  let maxPrice := searchParams_get searchParams "maxPrice" in
  let search := searchParams_get searchParams "search" in
  if negb (given category) && negb (given inStock) && negb (given featured)
     && negb (given minPrice) && negb (given maxPrice) && negb (given search)
  then
    result <- findWithPagination "products" page limit ;;
    docs <- prop result "docs" ;;
    pagination <- pagination_of result ;;
    ret (NextResponse_json
           [("success", VBool true);
            ("method", VStr "Simple Pagination");
            ("data", docs);
            ("pagination", pagination)])
  else
    getPayloadClient ;;;
    let whereConditions :=
      products_whereConditions category inStock featured minPrice maxPrice in
    if given search then
      result <- payload_call find
        (VObj [("collection", VStr "products");
               ("where",
                VObj [("and",
                       VArr (whereConditions ++
                             [VObj [("or",
                                     VArr [cond "name" "contains" (param_val search);
                                           cond "description" "contains" (param_val search)])]]))]);
               ("page", VNum page);
               ("limit", VNum limit);
               ("sort", VStr "-createdAt")]) ;;
      docs <- prop result "docs" ;;
      pagination <- pagination_of result ;;
      ret (NextResponse_json
             [("success", VBool true);
              ("method", VStr "Complex Query with Search");
              ("data", docs);
              ("pagination", pagination);
              ("filters",
               VObj [("category", param_val category);
                     ("inStock", param_val inStock);
                     ("featured", param_val featured);
                     ("minPrice", param_val minPrice);
                     ("maxPrice", param_val maxPrice);
                     ("search", param_val search)])])
    else
      result <- payload_call find
        (VObj [("collection", VStr "products");
               ("where", VObj [("and", VArr whereConditions)]);
               ("page", VNum page);
               ("limit", VNum limit);
               ("sort", VStr "-createdAt")]) ;;
      docs <- prop result "docs" ;;
      pagination <- pagination_of result ;;
      ret (NextResponse_json
             [("success", VBool true);
              ("method", VStr "Complex AND Query");
              ("data", docs);
              ("pagination", pagination);
              ("filters",
               VObj [("category", param_val category);
                     ("inStock", param_val inStock);
                     ("featured", param_val featured);
                     ("minPrice", param_val minPrice);
                     ("maxPrice", param_val maxPrice)])]).

Definition products_GET (req : request) : M response :=
  try_catch
    (products_GET_try req)
    (fun error =>
       console_error "Error fetching products:" error ;;;
       ret (failure_response 500 error "Failed to fetch products")).

Definition products_required : list string :=
  ["name"; "slug"; "price"; "category"].

Definition products_POST_try (req : request) : M response :=
  body <- lift (json req) ;;
  missing <- some_falsy body products_required ;;
  if missing then
    ret (JsonResponse 400
           (VObj [("success", VBool false);
                  ("error", VStr "Missing required fields: name, slug, price, category")]))
  else
    getPayloadClient ;;;
    product <- payload_call create
      (VObj [("collection", VStr "products"); ("data", body)]) ;;
    ret (NextResponse_json
           [("success", VBool true);
            ("method", VStr "Create Document");
            ("data", product)]).

Definition products_POST (req : request) : M response :=
  try_catch
    (products_POST_try req)
    (fun error =>
       console_error "Error creating product:" error ;;;
       ret (failure_response 500 error "Failed to create product")).

End Handlers.

(* ===================================================================== *)
(** ** examples/local-api/server-actions/actions.ts (posts) *)
(* ===================================================================== *)

Section Actions.
Context {api : LocalAPI} {rt : Runtime}.

(** [{ success: false, error: error.message || fallback }]. *)
Definition action_failure (e : JsError) (fallback : string) : jsval :=
  VObj [("success", VBool false); ("error", VStr (message_or e fallback))].

Definition createPost_try (formData : jsval) : M jsval :=
  missing <- some_falsy formData posts_required ;;
  if missing then
    ret (VObj [("success", VBool false);
               ("error", VStr "Missing required fields: title, slug, content, excerpt, author, category")])
  else
    getPayloadClient ;;;
    post <- payload_call create
      (VObj [("collection", VStr "posts"); ("data", formData)]) ;;
    revalidatePath "/examples/local-api" ;;;
    revalidatePath "/examples/local-api/server-actions" ;;;
    ret (VObj [("success", VBool true);
               ("message", VStr "Post created successfully");
               ("data", post)]).

Definition createPost (formData : jsval) : M jsval :=
  try_catch
    (createPost_try formData)
    (fun error =>
       console_error "Error creating post:" error ;;;
       ret (action_failure error "Failed to create post")).

Definition updatePost_try (id : string) (formData : jsval) : M jsval :=
  getPayloadClient ;;;
  post <- payload_call update
    (VObj [("collection", VStr "posts"); ("id", VStr id); ("data", formData)]) ;;
  revalidatePath "/examples/local-api" ;;;
  revalidatePath "/examples/local-api/server-actions" ;;;
  ret (VObj [("success", VBool true);
             ("message", VStr "Post updated successfully");
             ("data", post)]).

Definition updatePost (id : string) (formData : jsval) : M jsval :=
  try_catch
    (updatePost_try id formData)
    (fun error =>
       console_error "Error updating post:" error ;;;
       ret (action_failure error "Failed to update post")).

Definition deletePost_try (id : string) : M jsval :=
  getPayloadClient ;;;
  payload_call delete
    (VObj [("collection", VStr "posts"); ("id", VStr id)]) ;;;
  revalidatePath "/examples/local-api" ;;;
  revalidatePath "/examples/local-api/server-actions" ;;;
  ret (VObj [("success", VBool true);
             ("message", VStr "Post deleted successfully")]).

Definition deletePost (id : string) : M jsval :=
  try_catch
    (deletePost_try id)
    (fun error =>
       console_error "Error deleting post:" error ;;;
       ret (action_failure error "Failed to delete post")).

Definition togglePostStatus_try (id : string) : M jsval :=
  getPayloadClient ;;;
  post <- payload_call findByID
    (VObj [("collection", VStr "posts"); ("id", VStr id)]) ;;
  status <- prop post "status" ;;
  let newStatus := if is_str status "published" then "draft" else "published" in
  extra <-
    (if newStatus =? "published" then
       publishedDate <- prop post "publishedDate" ;;
       if negb (truthy publishedDate) then
         now <- Date_now_ISO ;;
         ret [("publishedDate", VStr now)]
       else ret []
     else ret []) ;;
  updatedPost <- payload_call update
    (VObj [("collection", VStr "posts");
           ("id", VStr id);
           ("data", spread [("status", VStr newStatus)] extra)]) ;;
  revalidatePath "/examples/local-api" ;;;
  revalidatePath "/examples/local-api/server-actions" ;;;
  updatedStatus <- prop updatedPost "status" ;;
  ret (VObj [("success", VBool true);
             ("message", VStr ("Post is now " ++ to_string updatedStatus));
             ("data", updatedPost)]).

Definition togglePostStatus (id : string) : M jsval :=
  try_catch
    (togglePostStatus_try id)
    (fun error =>
       console_error "Error toggling post status:" error ;;;
       ret (action_failure error "Failed to toggle post status")).

Definition togglePostFeatured_try (id : string) : M jsval :=
  getPayloadClient ;;;
  post <- payload_call findByID
    (VObj [("collection", VStr "posts"); ("id", VStr id)]) ;;
  featured <- prop post "featured" ;;
  updatedPost <- payload_call update
    (VObj [("collection", VStr "posts");
           ("id", VStr id);
           ("data", VObj [("featured", VBool (negb (truthy featured)))])]) ;;
  revalidatePath "/examples/local-api" ;;;
  revalidatePath "/examples/local-api/server-actions" ;;;
  updatedFeatured <- prop updatedPost "featured" ;;
  ret (VObj [("success", VBool true);
             ("message",
              VStr ("Post is now " ++
                    (if truthy updatedFeatured then "featured" else "not featured")));
             ("data", updatedPost)]).

Definition togglePostFeatured (id : string) : M jsval :=
  try_catch
    (togglePostFeatured_try id)
    (fun error =>
       console_error "Error toggling post featured:" error ;;;
       ret (action_failure error "Failed to toggle post featured status")).

Definition updatePostReadTime_try (id : string) (readTime : number) : M jsval :=
  if num_lt readTime (of_Z 1) then
    ret (VObj [("success", VBool false);
               ("error", VStr "Read time must be at least 1 minute")])
  else
    getPayloadClient ;;;
    post <- payload_call update
      (VObj [("collection", VStr "posts");
             ("id", VStr id);
             ("data", VObj [("readTime", VNum readTime)])]) ;;
    revalidatePath "/examples/local-api" ;;;
    revalidatePath "/examples/local-api/server-actions" ;;;
    ret (VObj [("success", VBool true);
               ("message", VStr "Read time updated successfully");
               ("data", post)]).

Definition updatePostReadTime (id : string) (readTime : number) : M jsval :=
  try_catch
    (updatePostReadTime_try id readTime)
    (fun error =>
       console_error "Error updating read time:" error ;;;
       ret (action_failure error "Failed to update read time")).

Definition bulkUpdatePosts_try (ids : list string) (updates : jsval) : M jsval :=
  getPayloadClient ;;;
  results <-
    for_of ids
      (fun id results =>
         post <- payload_call update
           (VObj [("collection", VStr "posts");
                  ("id", VStr id);
                  ("data", updates)]) ;;
         ret (results ++ [post]))
      [] ;;
  revalidatePath "/examples/local-api" ;;;
  revalidatePath "/examples/local-api/server-actions" ;;;
  ret (VObj [("success", VBool true);
             ("message",
              VStr (number_to_string (of_nat (List.length results))
                    ++ " posts updated successfully"));
             ("data", VArr results)]).

Definition bulkUpdatePosts (ids : list string) (updates : jsval) : M jsval :=
  try_catch
    (bulkUpdatePosts_try ids updates)
    (fun error =>
       console_error "Error bulk updating posts:" error ;;;
       ret (action_failure error "Failed to bulk update posts")).

(* ===================================================================== *)
(** ** server-actions/actions.ts (products) *)
(* ===================================================================== *)

Definition createProduct_try (formData : jsval) : M jsval :=
  missing <- some_falsy formData products_required ;;
  if missing then
    ret (VObj [("success", VBool false);
               ("error", VStr "Missing required fields: name, slug, price, category")])
  else
    getPayloadClient ;;;
    product <- payload_call create
      (VObj [("collection", VStr "products"); ("data", formData)]) ;;
    revalidatePath "/examples/local-api" ;;;
    revalidatePath "/examples/local-api/server-actions" ;;;
    ret (VObj [("success", VBool true);
               ("message", VStr "Product created successfully");
               ("data", product)]).

Definition createProduct (formData : jsval) : M jsval :=
  try_catch
    (createProduct_try formData)
    (fun error =>
       console_error "Error creating product:" error ;;;
       ret (action_failure error "Failed to create product")).

Definition updateProduct_try (id : string) (formData : jsval) : M jsval :=
  getPayloadClient ;;;
  product <- payload_call update
    (VObj [("collection", VStr "products"); ("id", VStr id); ("data", formData)]) ;;
  revalidatePath "/examples/local-api" ;;;
  revalidatePath "/examples/local-api/server-actions" ;;;
  ret (VObj [("success", VBool true);
             ("message", VStr "Product updated successfully");
             ("data", product)]).

Definition updateProduct (id : string) (formData : jsval) : M jsval :=
  try_catch
    (updateProduct_try id formData)
    (fun error =>
       console_error "Error updating product:" error ;;;
       ret (action_failure error "Failed to update product")).

Definition deleteProduct_try (id : string) : M jsval :=
  getPayloadClient ;;;
  payload_call delete
    (VObj [("collection", VStr "products"); ("id", VStr id)]) ;;;
  revalidatePath "/examples/local-api" ;;;
  revalidatePath "/examples/local-api/server-actions" ;;;
  ret (VObj [("success", VBool true);
             ("message", VStr "Product deleted successfully")]).

Definition deleteProduct (id : string) : M jsval :=
  try_catch
    (deleteProduct_try id)
    (fun error =>
       console_error "Error deleting product:" error ;;;
       ret (action_failure error "Failed to delete product")).

Definition toggleProductStock_try (id : string) : M jsval :=
  getPayloadClient ;;;
  product <- payload_call findByID
    (VObj [("collection", VStr "products"); ("id", VStr id)]) ;;
  inStock <- prop product "inStock" ;;
  updatedProduct <- payload_call update
    (VObj [("collection", VStr "products");
           ("id", VStr id);
           ("data", VObj [("inStock", VBool (negb (truthy inStock)))])]) ;;
  revalidatePath "/examples/local-api" ;;;
  revalidatePath "/examples/local-api/server-actions" ;;;
  updatedInStock <- prop updatedProduct "inStock" ;;
  ret (VObj [("success", VBool true);
             ("message",
              VStr ("Product is now " ++
                    (if truthy updatedInStock then "in stock" else "out of stock")));
             ("data", updatedProduct)]).

Definition toggleProductStock (id : string) : M jsval :=
  try_catch
    (toggleProductStock_try id)
    (fun error =>
       console_error "Error toggling product stock:" error ;;;
       ret (action_failure error "Failed to toggle product stock")).

Definition toggleProductFeatured_try (id : string) : M jsval :=
  getPayloadClient ;;;
  product <- payload_call findByID
    (VObj [("collection", VStr "products"); ("id", VStr id)]) ;;
  featured <- prop product "featured" ;;
  updatedProduct <- payload_call update
    (VObj [("collection", VStr "products");
           ("id", VStr id);
           ("data", VObj [("featured", VBool (negb (truthy featured)))])]) ;;
  revalidatePath "/examples/local-api" ;;;
  revalidatePath "/examples/local-api/server-actions" ;;;
  updatedFeatured <- prop updatedProduct "featured" ;;
  ret (VObj [("success", VBool true);
             ("message",
              VStr ("Product is now " ++
                    (if truthy updatedFeatured then "featured" else "not featured")));
             ("data", updatedProduct)]).

Definition toggleProductFeatured (id : string) : M jsval :=
  try_catch
    (toggleProductFeatured_try id)
    (fun error =>
       console_error "Error toggling product featured:" error ;;;
       ret (action_failure error "Failed to toggle product featured status")).

Definition updateProductInventory_try (id : string) (inventory : number) : M jsval :=
  if num_lt inventory (of_Z 0) then
    ret (VObj [("success", VBool false);
               ("error", VStr "Inventory cannot be negative")])
  else
    getPayloadClient ;;;
    product <- payload_call update
      (VObj [("collection", VStr "products");
             ("id", VStr id);
             ("data", VObj [("inventory", VNum inventory);
                            ("inStock", VBool (num_gt inventory (of_Z 0)))])]) ;;
    revalidatePath "/examples/local-api" ;;;
    revalidatePath "/examples/local-api/server-actions" ;;;
    ret (VObj [("success", VBool true);
               ("message", VStr "Inventory updated successfully");
               ("data", product)]).

Definition updateProductInventory (id : string) (inventory : number) : M jsval :=
  try_catch
    (updateProductInventory_try id inventory)
    (fun error =>
       console_error "Error updating inventory:" error ;;;
       ret (action_failure error "Failed to update inventory")).

Definition bulkUpdateProducts_try (ids : list string) (updates : jsval) : M jsval :=
  getPayloadClient ;;;
  results <-
    for_of ids
      (fun id results =>
         product <- payload_call update
           (VObj [("collection", VStr "products");
                  ("id", VStr id);
                  ("data", updates)]) ;;
         ret (results ++ [product]))
      [] ;;
  revalidatePath "/examples/local-api" ;;;
  revalidatePath "/examples/local-api/server-actions" ;;;
  ret (VObj [("success", VBool true);
             ("message",
              VStr (number_to_string (of_nat (List.length results))
                    ++ " products updated successfully"));
             ("data", VArr results)]).

Definition bulkUpdateProducts (ids : list string) (updates : jsval) : M jsval :=
  try_catch
    (bulkUpdateProducts_try ids updates)
    (fun error =>
       console_error "Error bulk updating products:" error ;;;
       ret (action_failure error "Failed to bulk update products")).

End Actions.

(* ===================================================================== *)
(** ** next/preview/route.ts and next/exit-draft/route.ts *)
(* ===================================================================== *)

Section Preview.
Context {api : LocalAPI} {rt : Runtime}.

Definition payloadToken : string := "payload-token".

(** [redirect(path)]: control leaves the handler with a redirect to [path];
    neither route wraps the call in a [try]. *)
Definition redirect (path : string) : M response := ret (Redirect path).

Definition forbidden : response :=
  TextResponse 403 "You are not allowed to preview this page".

Definition preview_GET (req : request) : M response :=
  getPayloadClient ;;;
  let searchParams := query req in
  let path := searchParams_get searchParams "path" in
  let collection := searchParams_get searchParams "collection" in
  let slug := searchParams_get searchParams "slug" in
  if negb (given path) then ret (TextResponse 404 "No path provided")
  else
    let token := assoc payloadToken (cookies req) in
    if negb (given token) then
      draftMode_set false ;;;
      ret forbidden
    else
      (* [Some user]: verification returned; [None]: the catch block ran *)
      verified <-
        try_catch
          (user <- lift (jwt_verify (param_str token) payload_secret) ;;
           ret (Some user))
          (fun error =>
             logger_error "Token verification failed:" error ;;;
             draftMode_set false ;;;
             ret None) ;;
      match verified with
      | None => ret forbidden
      | Some user =>
          if negb (truthy user) then
            draftMode_set false ;;;
            ret forbidden
          else
            (* [Some r]: the block returned [r]; [None]: it fell through *)
            early <-
              (if given collection && given slug then
                 try_catch
                   (result <- payload_call find
                      (VObj [("collection", param_val collection);
                             ("where", cond "slug" "equals" (param_val slug));
                             ("draft", VBool true);
                             ("depth", VNum (of_Z 0));
                             ("limit", VNum (of_Z 1))]) ;;
                    docs <- prop result "docs" ;;
                    len <- prop docs "length" ;;
                    if negb (truthy len)
                    then ret (Some (TextResponse 404 "Document not found"))
                    else ret None)
                   (fun error =>
                      logger_error "Error finding document:" error ;;;
                      ret None)
               else ret None) ;;
            match early with
            | Some r => ret r
            | None =>
                draftMode_set true ;;;
                redirect (param_str path)
            end
      end.

Definition exit_draft_GET (req : request) : M response :=
  let searchParams := query req in
  let path := param_or (searchParams_get searchParams "path") "/" in
  draftMode_set false ;;;
  redirect path.

End Preview.

(* ===================================================================== *)
(** ** Vocabulary of the statements *)
(* ===================================================================== *)

Section Vocabulary.
Context {api : LocalAPI} {rt : Runtime}.

Definition outcome_of {A} (x : result A * World * list event) : result A :=
  fst (fst x).
Definition world_of {A} (x : result A * World * list event) : World :=
  snd (fst x).
Definition trace_of {A} (x : result A * World * list event) : list event :=
  snd x.

(** An error thrown by [getPayload] or by a method of the handle is on the
    trace. *)
Definition thrown_in (l : list event) (e : JsError) : Prop :=
  In (Init (Throw e)) l \/ exists m args, In (Call m args (Throw e)) l.

(** The trace contains a call on the store. *)
Definition is_store_event (ev : event) : bool :=
  match ev with Init _ | Call _ _ _ => true | _ => false end.

Definition store_events (l : list event) : list event :=
  filter is_store_event l.

(** Argument objects of the calls by id. *)
Definition by_id (collection id : string) : jsval :=
  VObj [("collection", VStr collection); ("id", VStr id)].

Definition update_args (collection id : string) (data : jsval) : jsval :=
  VObj [("collection", VStr collection); ("id", VStr id); ("data", data)].

Definition create_args (collection : string) (data : jsval) : jsval :=
  VObj [("collection", VStr collection); ("data", data)].

(** The field [k] of [v], [undefined] when it cannot be read. *)
Definition field (v : jsval) (k : string) : jsval :=
  match get_prop v k with Ok x => x | Throw _ => VUndefined end.

(** A declared-required field is present: the object has the key. *)
Definition has_key (v : jsval) (k : string) : bool :=
  match v with
  | VObj fs => match assoc k fs with Some _ => true | None => false end
  | _ => false
  end.





(** The store honours its writes: after a successful [update] the record can
    be read by id, reading does not change the store, and every field of the
    written data is read back. *)
Definition writes_are_read_back : Prop :=
  forall collection id data s r s',
    payload update (update_args collection id (VObj data)) s = (Ok r, s') ->
    exists doc,
      payload findByID (by_id collection id) s' = (Ok doc, s') /\
      forall k v, assoc k data = Some v -> get_prop doc k = Ok v.

(** Obtaining the handle does not touch the documents. *)
Definition init_keeps_store : Prop :=
  forall s, snd (getPayload s) = s.

(** The store after the writes for [ids] have all succeeded, in list order,
    with the documents they returned. *)
Fixpoint commit (collection : string) (updates : jsval) (ids : list string)
    (s : Store) : option (Store * list jsval) :=
  match ids with
  | [] => Some (s, [])
  | id :: rest =>
      match payload update (update_args collection id updates) s with
      | (Ok d, s') =>
          match commit collection updates rest s' with
          | Some (s'', ds) => Some (s'', d :: ds)
          | None => None
          end
      | (Throw _, _) => None
      end
  end.

(** The trace of those writes. *)
Definition writes (collection : string) (updates : jsval)
    (ids : list string) (docs : list jsval) : list event :=
  map (fun p => Call update (update_args collection (fst p) updates) (Ok (snd p)))
      (combine ids docs).

(** *** The endpoints, by name *)




Inductive action_call : Type :=
  | CreatePost (formData : jsval)
  | UpdatePost (id : string) (formData : jsval)
  | DeletePost (id : string)
  | TogglePostStatus (id : string)
  | TogglePostFeatured (id : string)
  | UpdatePostReadTime (id : string) (readTime : number)
  | BulkUpdatePosts (ids : list string) (updates : jsval)
  | CreateProduct (formData : jsval)
  | UpdateProduct (id : string) (formData : jsval)
  | DeleteProduct (id : string)
  | ToggleProductStock (id : string)
  | ToggleProductFeatured (id : string)
  | UpdateProductInventory (id : string) (inventory : number)
  | BulkUpdateProducts (ids : list string) (updates : jsval).

Definition run_action (c : action_call) : M jsval :=
  match c with
  | CreatePost f => createPost f
  | UpdatePost id f => updatePost id f
  | DeletePost id => deletePost id
  | TogglePostStatus id => togglePostStatus id
  | TogglePostFeatured id => togglePostFeatured id
  | UpdatePostReadTime id n => updatePostReadTime id n
  | BulkUpdatePosts ids u => bulkUpdatePosts ids u
  | CreateProduct f => createProduct f
  | UpdateProduct id f => updateProduct id f
  | DeleteProduct id => deleteProduct id
  | ToggleProductStock id => toggleProductStock id
  | ToggleProductFeatured id => toggleProductFeatured id
  | UpdateProductInventory id n => updateProductInventory id n
  | BulkUpdateProducts ids u => bulkUpdateProducts ids u
  end.


(** The four toggles, with the collection and field each one flips. *)
Inductive toggle : Type :=
  | PostStatus | PostFeatured | ProductStock | ProductFeatured.

Definition run_toggle (t : toggle) (id : string) : M jsval :=
  match t with
  | PostStatus => togglePostStatus id
  | PostFeatured => togglePostFeatured id
  | ProductStock => toggleProductStock id
  | ProductFeatured => toggleProductFeatured id
  end.

Definition toggle_collection (t : toggle) : string :=
  match t with
  | PostStatus | PostFeatured => "posts"
  | ProductStock | ProductFeatured => "products"
  end.

Definition toggle_field (t : toggle) : string :=
  match t with
  | PostStatus => "status"
  | PostFeatured | ProductFeatured => "featured"
  | ProductStock => "inStock"
  end.

(** Values of the toggled field allowed by the data model: the two status
    names, or a boolean. *)
Definition in_domain (t : toggle) (v : jsval) : Prop :=
  match t with
  | PostStatus => v = VStr "draft" \/ v = VStr "published"
  | _ => exists b, v = VBool b
  end.

(** The value a toggle writes when it has read [v]. *)
Definition flipped (t : toggle) (v : jsval) : jsval :=
  match t with
  | PostStatus => VStr (if is_str v "published" then "draft" else "published")
  | _ => VBool (negb (truthy v))
  end.

(** The two bulk actions. *)
Inductive bulk : Type := BulkPosts | BulkProducts.

Definition run_bulk (b : bulk) : list string -> jsval -> M jsval :=
  match b with BulkPosts => bulkUpdatePosts | BulkProducts => bulkUpdateProducts end.

Definition bulk_collection (b : bulk) : string :=
  match b with BulkPosts => "posts" | BulkProducts => "products" end.

Definition bulk_label (b : bulk) : string :=
  match b with
  | BulkPosts => "Error bulk updating posts:"
  | BulkProducts => "Error bulk updating products:"
  end.

Definition bulk_fallback (b : bulk) : string :=
  match b with
  | BulkPosts => "Failed to bulk update posts"
  | BulkProducts => "Failed to bulk update products"
  end.

(** The four create paths. *)
Inductive creator : Type :=
  | RoutePosts | RouteProducts | ActionPost | ActionProduct.

Definition required_of (c : creator) : list string :=
  match c with
  | RoutePosts | ActionPost => posts_required
  | RouteProducts | ActionProduct => products_required
  end.

Definition creator_collection (c : creator) : string :=
  match c with
  | RoutePosts | ActionPost => "posts"
  | RouteProducts | ActionProduct => "products"
  end.

Definition missing_message (c : creator) : string :=
  match c with
  | RoutePosts | ActionPost =>
      "Missing required fields: title, slug, content, excerpt, author, category"
  | RouteProducts | ActionProduct =>
      "Missing required fields: name, slug, price, category"
  end.

(** What a create path hands back, in one shape: the HTTP status (routes
    only) and the envelope. *)
Definition run_create (c : creator) (body : jsval)
  : World -> result (option nat * jsval) * World * list event :=
  let of_route (m : M response) : M (option nat * jsval) :=
    r <- m ;;
    ret (match r with
         | JsonResponse st b => (Some st, b)
         | TextResponse st t => (Some st, VStr t)
         | Redirect p => (None, VStr p)
         end) in
  let of_action (m : M jsval) : M (option nat * jsval) :=
    b <- m ;; ret (None, b) in
  match c with
  | RoutePosts => of_route (posts_POST (mkRequest [] [] (Ok body)))
  | RouteProducts => of_route (products_POST (mkRequest [] [] (Ok body)))
  | ActionPost => of_action (createPost body)
  | ActionProduct => of_action (createProduct body)
  end.

(** The envelope of a failed validation. *)
Definition validation_failure (c : creator) : option nat * jsval :=
  (match c with RoutePosts | RouteProducts => Some 400%nat | _ => None end,
   VObj [("success", VBool false); ("error", VStr (missing_message c))]).

End Vocabulary.

(* ===================================================================== *)
(** ** An in-memory store and runtime, for concrete runs *)
(* ===================================================================== *)


Module Mem.

(** Documents by collection and id. *)
Definition docs : Type := list (string * string * list (string * jsval)).

Fixpoint lookup (c id : string) (st : docs) : option (list (string * jsval)) :=
  match st with
  | [] => None
  | (c', id', d) :: rest =>
      if (c' =? c) && (id' =? id) then Some d else lookup c id rest
  end.

Fixpoint replace (c id : string) (d : list (string * jsval)) (st : docs) : docs :=
  match st with
  | [] => []
  | (c', id', d') :: rest =>
      if (c' =? c) && (id' =? id) then (c', id', d) :: rest
      else (c', id', d') :: replace c id d rest
  end.

Fixpoint remove (c id : string) (st : docs) : docs :=
  match st with
  | [] => []
  | (c', id', d') :: rest =>
      if (c' =? c) && (id' =? id) then rest
      else (c', id', d') :: remove c id rest
  end.

Definition arg_str (args : jsval) (k : string) : string :=
  match field args k with VStr s => s | _ => "" end.

Definition fields_of (v : jsval) : list (string * jsval) :=
  match v with VObj fs => fs | _ => [] end.

(** The written fields, then the fields the write leaves alone. *)
Definition merge (data doc : list (string * jsval)) : list (string * jsval) :=
  data ++
  filter (fun kv => match assoc (fst kv) data with Some _ => false | None => true end)
         doc.

Definition not_found : JsError := mkError "Not Found".

Definition matches (c : string) (slug : jsval)
    (entry : string * string * list (string * jsval)) : bool :=
  let '(c', _, d) := entry in
  (c' =? c) &&
  match slug with
  | VStr s => is_str (field (VObj d) "slug") s
  | _ => true
  end.

Definition call (m : method) (args : jsval) (st : docs) : result jsval * docs :=
  let c := arg_str args "collection" in
  let id := arg_str args "id" in
  let data := fields_of (field args "data") in
  match m with
  | find =>
      let slug := field (field (field args "where") "slug") "equals" in
      let found := map (fun e => VObj (snd e)) (filter (matches c slug) st) in
      (Ok (VObj [("docs", VArr found);
                 ("totalDocs", VNum (of_nat (List.length found)));
                 ("page", field args "page");
                 ("limit", field args "limit");
                 ("totalPages", VNum (of_Z 1))]), st)
  | findByID =>
      match lookup c id st with
      | Some d => (Ok (VObj d), st)
      | None => (Throw not_found, st)
      end
  | create =>
      let id := arg_str (VObj data) "slug" in
      match lookup c id st with
      | Some _ => (Throw (mkError "The following field is invalid: slug"), st)
      | None => (Ok (VObj (("id", VStr id) :: data)),
                 st ++ [(c, id, ("id", VStr id) :: data)])
      end
  | update =>
      match lookup c id st with
      | Some d => (Ok (VObj (merge data d)), replace c id (merge data d) st)
      | None => (Throw not_found, st)
      end
  | delete =>
      match lookup c id st with
      | Some d => (Ok (VObj d), remove c id st)
      | None => (Throw not_found, st)
      end
  end.

#[local] Instance api : LocalAPI := {|
  Store := docs;
  getPayload := fun s => (Ok tt, s);
  payload := call;
  payload_secret := "s3cret"
|}.



Definition print_number (n : number) : string :=
  match n with
  | NaN => "NaN"
  | Inf neg => if neg then "-Infinity" else "Infinity"
  | Fin q => DecimalString.NilZero.string_of_int (Z.to_int (Qnum q / Zpos (Qden q)))
  end.

(** Integers are all the examples parse and print; a token is valid when it
    is the secret behind a fixed prefix. *)
#[local] Instance rt : Runtime := {|
  parseFloat := parseInt;
  number_to_string := print_number;
  jwt_verify := fun token secret =>
    if token =? "signed:" ++ secret
    then Ok (VObj [("id", VStr "editor")])
    else Throw (mkError "invalid signature")
|}.

Definition post (slug status : string) (featured : bool)
  : string * string * list (string * jsval) :=
  ("posts", slug,
   [("id", VStr slug); ("slug", VStr slug); ("title", VStr "A post");
    ("status", VStr status); ("featured", VBool featured)]).

Definition product (slug : string) (inStock featured : bool) (inventory : Z)
  : string * string * list (string * jsval) :=
  ("products", slug,
   [("id", VStr slug); ("slug", VStr slug); ("name", VStr "A product");
    ("inStock", VBool inStock); ("featured", VBool featured);
    ("inventory", VNum (of_Z inventory))]).

Definition sample : docs :=
  [post "hello" "draft" false; post "world" "published" true;
   product "lamp" true false 3; product "desk" false true 0].

Definition world0 : World := mkWorld sample false "2025-01-01T00:00:00.000Z".

Definition get_request (q : list (string * string)) : request :=
  mkRequest q [] (Ok VUndefined).

End Mem.

(* ===================================================================== *)
(** ** Vocabulary of the proofs *)
(* ===================================================================== *)




Section ProofVocabulary.
Context {api : LocalAPI} {rt : Runtime}.

(** Every event a computation records satisfies [P], whatever the world it
    starts from. *)
Definition every_event (P : event -> Prop) {A} (m : M A) : Prop :=
  forall w, Forall P (trace_of (m w)).

(** A throw of the store recorded on the trace is the exception the
    computation ends with. *)
Definition faithful {A} (m : M A) : Prop :=
  forall w e, thrown_in (trace_of (m w)) e -> outcome_of (m w) = Throw e.











End ProofVocabulary.

(** The two listing routes. *)
Inductive listing : Type := Posts | Products.

Definition run_GET {api : LocalAPI} {rt : Runtime} (c : listing)
  : request -> M response :=
  match c with Posts => posts_GET | Products => products_GET end.






(** The calls on the handle's methods recorded on a trace. *)
Definition call_events (l : list event) : list event :=
  filter (fun ev => match ev with Call _ _ _ => true | _ => false end) l.

(** Properties can be read from the value (it is neither [undefined] nor
    [null]). *)
Definition readable (v : jsval) : bool :=
  match v with VUndefined | VNull => false | _ => true end.

(** Some declared-required field of [body] is falsy: missing, [null], the
    empty string, [0], [NaN] or [false]. *)
Definition some_required_falsy (fields : list string) (body : jsval) : bool :=
  existsb (fun f => negb (truthy (field body f))) fields.

(** Every declared-required field is supplied. *)
Definition all_required_supplied (fields : list string) (body : jsval) : bool :=
  forallb (has_key body) fields.

(** The loop body shared by the two bulk actions. *)
Definition one_write {api : LocalAPI} (collection : string) (updates : jsval)
    (id : string) (results : list jsval) : M (list jsval) :=
  x <- payload_call update (update_args collection id updates) ;;
  ret (results ++ [x]).

(** The states of the preview route, in the order the handler tests them. *)
Inductive preview_state : Type :=
  | NoPath | NoToken | TokenInvalid | DocumentAbsent | Proceed.

(** The arguments of the existence check. *)
Definition preview_find_args (collection slug : option string) : jsval :=
  VObj [("collection", param_val collection);
        ("where", cond "slug" "equals" (param_val slug));
        ("draft", VBool true);
        ("depth", VNum (of_Z 0));
        ("limit", VNum (of_Z 1))].

(** [result.docs.length], when it can be read. *)
Definition docs_length (found : jsval) : result jsval :=
  match get_prop found "docs" with
  | Ok docs => get_prop docs "length"
  | Throw e => Throw e
  end.

(** The state a request is in, given the store the handle gives access to:
    the path is tested first, then the token; the existence check is made
    only when both collection and slug are given, and a check that throws
    does not stop the preview. *)
Definition preview_state_of {api : LocalAPI} {rt : Runtime}
    (req : request) (s : Store) : preview_state :=
  let p := searchParams_get (query req) in
  let token := assoc payloadToken (cookies req) in
  if negb (given (p "path")) then NoPath
  else if negb (given token) then NoToken
  else
    match jwt_verify (param_str token) payload_secret with
    | Throw _ => TokenInvalid
    | Ok user =>
        if negb (truthy user) then TokenInvalid
        else if given (p "collection") && given (p "slug") then
          match payload find (preview_find_args (p "collection") (p "slug")) s with
          | (Ok found, _) =>
              match docs_length found with
              | Ok len => if truthy len then Proceed else DocumentAbsent
              | Throw _ => Proceed
              end
          | (Throw _, _) => Proceed
          end
        else Proceed
    end.

(** *** What a toggle needs of the store *)

Section StoreLaws.
Context {api : LocalAPI}.

(** The handle can be obtained, and obtaining it does not touch the
    documents. *)
Definition handle_is_available : Prop :=
  forall s, getPayload s = (Ok tt, s).

(** A record that can be read can be updated: the store accepts the data,
    whatever it is, and answers with a document. *)
Definition updates_are_accepted : Prop :=
  forall collection id s doc s1 data,
    payload findByID (by_id collection id) s = (Ok doc, s1) ->
    exists r s',
      payload update (update_args collection id (VObj data)) s1 = (Ok r, s') /\
      readable r = true.

End StoreLaws.

(** *** The [try] and the [catch] of each endpoint *)

Section BoundaryVocabulary.
Context {api : LocalAPI} {rt : Runtime}.









End BoundaryVocabulary.

(* ===================================================================== *)
(** ** lib/payload/operations.ts: the remaining helpers *)
(* ===================================================================== *)

(** Element read [v[0]]. *)
Definition get_first (v : jsval) : result jsval :=
  match v with
  | VUndefined | VNull => Throw (type_error_reading v "0")
  | VArr l => Ok (match l with x :: _ => x | [] => VUndefined end)
  | VStr s => Ok (match s with
                  | String c _ => VStr (String c EmptyString)
                  | EmptyString => VUndefined
                  end)
  | VObj fs => Ok (match assoc "0" fs with Some x => x | None => VUndefined end)
  | VBool _ | VNum _ => Ok VUndefined
  end.

Section Operations.
Context {api : LocalAPI} {rt : Runtime}.

Definition findAll (collection : string) : M jsval :=
  getPayloadClient ;;;
  result <- payload_call find
    (VObj [("collection", VStr collection); ("limit", VNum (of_Z 100))]) ;;
  prop result "docs".

Definition findWhere (collection : string) (where_ : jsval) : M jsval :=
  getPayloadClient ;;;
  result <- payload_call find
    (VObj [("collection", VStr collection); ("where", where_)]) ;;
  prop result "docs".

Definition findById (collection : string) (id : jsval) : M jsval :=
  getPayloadClient ;;;
  payload_call findByID (VObj [("collection", VStr collection); ("id", id)]).

Definition findBySlug (collection slug : string) : M jsval :=
  getPayloadClient ;;;
  result <- payload_call find
    (VObj [("collection", VStr collection);
           ("where", cond "slug" "equals" (VStr slug));
           ("limit", VNum (of_Z 1))]) ;;
  docs <- prop result "docs" ;;
  first <- lift (get_first docs) ;;
  ret (js_or first VNull).

Definition createDocument (collection : string) (data : jsval) : M jsval :=
  getPayloadClient ;;;
  payload_call create (VObj [("collection", VStr collection); ("data", data)]).

Definition updateDocument (collection : string) (id data : jsval) : M jsval :=
  getPayloadClient ;;;
  payload_call update
    (VObj [("collection", VStr collection); ("id", id); ("data", data)]).

Definition deleteDocument (collection : string) (id : jsval) : M jsval :=
  getPayloadClient ;;;
  payload_call delete (VObj [("collection", VStr collection); ("id", id)]).

(** [where_] is [undefined] when the optional argument is left out. *)
Definition countDocuments (collection : string) (where_ : jsval) : M jsval :=
  getPayloadClient ;;;
  result <- payload_call find
    (VObj [("collection", VStr collection);
           ("where", where_);
           ("limit", VNum (of_Z 0))]) ;;
  prop result "totalDocs".

Definition findWithComplexQuery (collection : string) (where_ : jsval) : M jsval :=
  getPayloadClient ;;;
  result <- payload_call find
    (VObj [("collection", VStr collection);
           ("where", where_);
           ("sort", VStr "-createdAt")]) ;;
  prop result "docs".

Definition searchDocuments (collection searchTerm : string) : M jsval :=
  getPayloadClient ;;;
  result <- payload_call find
    (VObj [("collection", VStr collection);
           ("where",
            VObj [("or", VArr [cond "name" "contains" (VStr searchTerm);
                               cond "description" "contains" (VStr searchTerm)])])]) ;;
  prop result "docs".

(** The helpers, by name. *)
Inductive helper_call : Type :=
  | FindAll (collection : string)
  | FindWithPagination (collection : string) (page limit : number)
  | FindWhere (collection : string) (where_ : jsval)
  | FindById (collection : string) (id : jsval)
  | FindBySlug (collection slug : string)
  | CreateDocument (collection : string) (data : jsval)
  | UpdateDocument (collection : string) (id data : jsval)
  | DeleteDocument (collection : string) (id : jsval)
  | CountDocuments (collection : string) (where_ : jsval)
  | FindWithComplexQuery (collection : string) (where_ : jsval)
  | SearchDocuments (collection searchTerm : string).

Definition run_helper (h : helper_call) : M jsval :=
  match h with
  | FindAll c => findAll c
  | FindWithPagination c p l => findWithPagination c p l
  | FindWhere c w => findWhere c w
  | FindById c i => findById c i
  | FindBySlug c s => findBySlug c s
  | CreateDocument c d => createDocument c d
  | UpdateDocument c i d => updateDocument c i d
  | DeleteDocument c i => deleteDocument c i
  | CountDocuments c w => countDocuments c w
  | FindWithComplexQuery c w => findWithComplexQuery c w
  | SearchDocuments c t => searchDocuments c t
  end.

(** The method a helper calls on the handle. *)
Definition helper_method (h : helper_call) : method :=
  match h with
  | FindById _ _ => findByID
  | CreateDocument _ _ => create
  | UpdateDocument _ _ _ => update
  | DeleteDocument _ _ => delete
  | _ => find
  end.

Definition helper_collection (h : helper_call) : string :=
  match h with
  | FindAll c | FindWithPagination c _ _ | FindWhere c _ | FindById c _
  | FindBySlug c _ | CreateDocument c _ | UpdateDocument c _ _
  | DeleteDocument c _ | CountDocuments c _ | FindWithComplexQuery c _
  | SearchDocuments c _ => c
  end.

End Operations.

(* ===================================================================== *)
(** ** Vocabulary: revalidation *)
(* ===================================================================== *)

(** The paths revalidated on a trace, in order. *)
Fixpoint revalidations (l : list event) : list string :=
  match l with
  | [] => []
  | Revalidate p :: rest => p :: revalidations rest
  | _ :: rest => revalidations rest
  end.

Definition not_revalidate (ev : event) : Prop :=
  match ev with Revalidate _ => False | _ => True end.

Definition not_store_event (ev : event) : Prop :=
  is_store_event ev = false.

(** The two views every action revalidates. *)
Definition action_views : list string :=
  ["/examples/local-api"; "/examples/local-api/server-actions"].

Section RevalidationVocabulary.
Context {api : LocalAPI}.

(** No path is revalidated on a run during which the store throws. *)
Definition silent_on_throw {A} (m : M A) : Prop :=
  forall w e, thrown_in (trace_of (m w)) e -> revalidations (trace_of (m w)) = [].

(** A run that returns a successful envelope has revalidated the two views. *)
Definition revalidates_on_success (m : M jsval) : Prop :=
  forall w env,
    outcome_of (m w) = Ok env -> field env "success" = VBool true ->
    revalidations (trace_of (m w)) = action_views.

End RevalidationVocabulary.

(** What a bulk action counts in its message. *)
Definition bulk_noun (b : bulk) : string :=
  match b with BulkPosts => "posts" | BulkProducts => "products" end.

(** The data [togglePostStatus] writes for a post it has read. *)
Definition status_update (post : jsval) (now : string) : list (string * jsval) :=
  if is_str (field post "status") "published" then [("status", VStr "draft")]
  else if truthy (field post "publishedDate") then [("status", VStr "published")]
  else [("status", VStr "published"); ("publishedDate", VStr now)].

(* ===================================================================== *)
(** ** URLSearchParams: serializing and parsing a query string *)
(* ===================================================================== *)

(** Strings are byte strings: the UTF-8 encoding of the JavaScript string,
    which is what the serializer works on (the parser's UTF-8 decoding is
    the identity on such bytes).  The serializer of
    [URLSearchParams.toString()] leaves ASCII letters, digits and [*-._] as
    they are, writes a space as [+] and every other byte as [%XX]. *)
Definition is_unreserved (c : ascii) : bool :=
  let n := nat_of_ascii c in
  (((48 <=? n) && (n <=? 57)) || ((65 <=? n) && (n <=? 90))
   || ((97 <=? n) && (n <=? 122))
   || (n =? 42) || (n =? 45) || (n =? 46) || (n =? 95))%nat.

Definition hex_digit (n : nat) : ascii :=
  ascii_of_nat (if (n <? 10)%nat then 48 + n else 55 + n)%nat.

Definition urlencode_byte (c : ascii) : string :=
  if Ascii.eqb c " " then "+"
  else if is_unreserved c then String c EmptyString
  else
    let n := nat_of_ascii c in
    String "%" (String (hex_digit (n / 16)) (String (hex_digit (n mod 16)) EmptyString)).

Fixpoint urlencode (s : string) : string :=
  match s with
  | EmptyString => EmptyString
  | String c rest => urlencode_byte c ++ urlencode rest
  end.

Definition URLSearchParams_toString (params : list (string * string)) : string :=
  String.concat "&"
    (map (fun p => (urlencode (fst p) ++ "=" ++ urlencode (snd p))%string) params).

(** The parser: the sequences between [&], the empty ones skipped, each
    split at its first [=], with [+] read as a space and [%XX] decoded. *)
Fixpoint split_on (sep : ascii) (s : string) : list string :=
  match s with
  | EmptyString => [EmptyString]
  | String c rest =>
      if Ascii.eqb c sep then EmptyString :: split_on sep rest
      else match split_on sep rest with
           | h :: t => String c h :: t
           | [] => [String c EmptyString]
           end
  end.

Fixpoint split_pair (s : string) : string * string :=
  match s with
  | EmptyString => (EmptyString, EmptyString)
  | String c rest =>
      if Ascii.eqb c "=" then (EmptyString, rest)
      else let '(n, v) := split_pair rest in (String c n, v)
  end.

Fixpoint plus_to_space (s : string) : string :=
  match s with
  | EmptyString => EmptyString
  | String c rest =>
      String (if Ascii.eqb c "+" then " "%char else c) (plus_to_space rest)
  end.

Fixpoint percent_decode (s : string) : string :=
  match s with
  | EmptyString => EmptyString
  | String c rest =>
      if Ascii.eqb c "%" then
        match rest with
        | String a (String b rest') =>
            match digit_val 16 a, digit_val 16 b with
            | Some x, Some y =>
                String (ascii_of_nat (Z.to_nat (16 * x + y))) (percent_decode rest')
            | _, _ => String c (percent_decode rest)
            end
        | _ => String c (percent_decode rest)
        end
      else String c (percent_decode rest)
  end.

Definition URLSearchParams_parse (qs : string) : list (string * string) :=
  map (fun chunk =>
         let '(n, v) := split_pair chunk in
         (percent_decode (plus_to_space n), percent_decode (plus_to_space v)))
      (filter (fun chunk => negb (chunk =? EmptyString)) (split_on "&" qs)).

(** The query of a URL: what follows the first [?], up to a [#].  (The URL
    parser also re-encodes a few characters of the query; a serialized
    query string contains none of them.) *)
Fixpoint before (sep : ascii) (s : string) : string :=
  match s with
  | EmptyString => EmptyString
  | String c rest => if Ascii.eqb c sep then EmptyString else String c (before sep rest)
  end.

Fixpoint after (sep : ascii) (s : string) : string :=
  match s with
  | EmptyString => EmptyString
  | String c rest => if Ascii.eqb c sep then rest else after sep rest
  end.

Definition url_searchParams (url : string) : list (string * string) :=
  URLSearchParams_parse (before "#" (after "?" url)).

(** An encoded string is made of unreserved bytes, [%] and [+]: it holds
    neither [&] nor [=]. *)
Definition is_encoded_byte (c : ascii) : bool :=
  is_unreserved c || Ascii.eqb c "%" || Ascii.eqb c "+".

(** A byte a serialized query string is made of. *)
Definition is_query_byte (c : ascii) : bool :=
  is_unreserved c || Ascii.eqb c "%" || Ascii.eqb c "+"
  || Ascii.eqb c "=" || Ascii.eqb c "&".

Fixpoint all_bytes (P : ascii -> bool) (s : string) : bool :=
  match s with
  | EmptyString => true
  | String c rest => P c && all_bytes P rest
  end.

(* ===================================================================== *)
(** ** payload/utilities/generatePreviewPath.ts *)
(* ===================================================================== *)

Definition collectionPrefixMap : list (string * string) :=
  [("posts", "/posts")].

(** The names an object literal inherits from [Object.prototype]: looking
    one of them up in the map gives the inherited member, not [undefined].
    The argument type of [generatePreviewPath] admits none of them. *)
Definition inherited_names : list string :=
  ["constructor"; "hasOwnProperty"; "isPrototypeOf"; "propertyIsEnumerable";
   "toLocaleString"; "toString"; "valueOf"; "__proto__";
   "__defineGetter__"; "__defineSetter__"; "__lookupGetter__";
   "__lookupSetter__"].

(** [collection] is a collection slug, none of the [inherited_names]. *)

Definition generatePreviewPath (collection slug : string) : string :=
  let prefix :=
    match assoc collection collectionPrefixMap with
    | Some p => p
    | None => EmptyString
    end in
  let path := (prefix ++ "/" ++ slug)%string in
  let params := [("slug", slug); ("collection", collection); ("path", path)] in
  let encodedParams :=
    fold_left (fun appended kv => appended ++ [kv]) params [] in
  ("/next/preview?" ++ URLSearchParams_toString encodedParams)%string.

(* ===================================================================== *)
(** ** posts/[slug]/page.tsx *)
(* ===================================================================== *)

(** What the page hands to its markup: nothing when [notFound()] is
    called, else the draft-mode flag (the preview banner) and the post. *)
Inductive page : Type :=
  | NotFoundPage
  | PostView (isDraftMode : bool) (post : jsval).

Section PostPageModel.
Context {api : LocalAPI} {rt : Runtime}.

(** [const { isEnabled } = await draftMode()]. *)
Definition draftMode_isEnabled : M bool := fun w => (Ok (draft w), w, []).

Definition PostPage (slug : string) : M page :=
  isDraftMode <- draftMode_isEnabled ;;
  getPayloadClient ;;;
  result <- payload_call find
    (VObj [("collection", VStr "posts");
           ("where", cond "slug" "equals" (VStr slug));
           ("draft", VBool isDraftMode);
           ("limit", VNum (of_Z 1))]) ;;
  docs <- prop result "docs" ;;
  post <- lift (get_first docs) ;;
  if negb (truthy post) then ret NotFoundPage
  else ret (PostView isDraftMode post).

End PostPageModel.

(* ===================================================================== *)
(** ** server-actions/ServerActionsDemo.tsx: the create forms *)
(* ===================================================================== *)

(** The state of the demo component: the busy flag, the result on display,
    and how many times the form has been reset. *)
Record UI : Type := mkUI {
  isCreating : bool;
  actionResult : jsval;
  form_resets : nat
}.

Section CreateForms.
Context {api : LocalAPI} {rt : Runtime}.

(** [formData.get(name)] on the submitted fields. *)
Definition formData_get (form : list (string * string)) (name : string)
  : option string := assoc name form.

Definition product_form_data (form : list (string * string)) : jsval :=
  let get := formData_get form in
  VObj [("name", param_val (get "name"));
        ("slug", param_val (get "slug"));
        ("description", param_val (get "description"));
        ("price", VNum (parseFloat (param_str (get "price"))));
        ("category", param_val (get "category"));
        ("inStock", VBool (is_str (param_val (get "inStock")) "on"));
        ("featured", VBool (is_str (param_val (get "featured")) "on"));
        ("inventory",
         js_or (VNum (parseInt (param_str (get "inventory")))) (VNum (of_Z 0)))].

Definition handleCreateProduct (form : list (string * string)) (ui : UI) : M UI :=
  let ui := mkUI true (actionResult ui) (form_resets ui) in
  let ui := mkUI (isCreating ui) VNull (form_resets ui) in
  let data := product_form_data form in
  result <- createProduct data ;;
  let ui := mkUI (isCreating ui) result (form_resets ui) in
  let ui := mkUI false (actionResult ui) (form_resets ui) in
  success <- prop result "success" ;;
  if truthy success
  then ret (mkUI (isCreating ui) (actionResult ui) (S (form_resets ui)))
  else ret ui.

Definition post_form_data (form : list (string * string)) : jsval :=
  let get := formData_get form in
  VObj [("title", param_val (get "title"));
        ("slug", param_val (get "slug"));
        ("content", param_val (get "content"));
        ("excerpt", param_val (get "excerpt"));
        ("author", param_val (get "author"));
        ("category", param_val (get "category"));
        ("status", param_val (get "status"));
        ("featured", VBool (is_str (param_val (get "featured")) "on"));
        ("readTime",
         js_or (VNum (parseInt (param_str (get "readTime")))) VUndefined);
        ("publishedDate", js_or (param_val (get "publishedDate")) VUndefined)].

Definition handleCreatePost (form : list (string * string)) (ui : UI) : M UI :=
  let ui := mkUI true (actionResult ui) (form_resets ui) in
  let ui := mkUI (isCreating ui) VNull (form_resets ui) in
  let data := post_form_data form in
  result <- createPost data ;;
  let ui := mkUI (isCreating ui) result (form_resets ui) in
  let ui := mkUI false (actionResult ui) (form_resets ui) in
  success <- prop result "success" ;;
  if truthy success
  then ret (mkUI (isCreating ui) (actionResult ui) (S (form_resets ui)))
  else ret ui.

(** The two forms. *)
Definition run_form (c : listing) : list (string * string) -> UI -> M UI :=
  match c with Posts => handleCreatePost | Products => handleCreateProduct end.

End CreateForms.

(** The server action behind each form, and the text inputs of the form
    that this action requires. *)
Definition form_action (c : listing) : creator :=
  match c with Posts => ActionPost | Products => ActionProduct end.

Definition form_required_text (c : listing) : list string :=
  match c with
  | Posts => posts_required
  | Products => ["name"; "slug"; "category"]
  end.

(* ===================================================================== *)
(** ** What each endpoint may ask of the store *)
(* ===================================================================== *)





(* ===================================================================== *)
(** * Properties *)
(* ===================================================================== *)

(** ** parseInt on small inputs *)

Example parseInt_3 : parseInt "3" = of_Z 3.
Proof. reflexivity. Qed.
Example parseInt_prefix : parseInt "  -12px" = of_Z (-12).
Proof. reflexivity. Qed.
Example parseInt_hex : parseInt "0x1f" = of_Z 31.
Proof. reflexivity. Qed.
Example parseInt_abc : parseInt "abc" = NaN.
Proof. reflexivity. Qed.
Example parseInt_empty : parseInt "" = NaN.
Proof. reflexivity. Qed.
(** U+00A0 and U+FEFF before the digits are skipped. *)
Example parseInt_nbsp :
  parseInt (String (ascii_of_nat 194) (String (ascii_of_nat 160) "5")) = of_Z 5
  /\ parseInt (String (ascii_of_nat 239)
                (String (ascii_of_nat 187) (String (ascii_of_nat 191) " 7")))
     = of_Z 7.
Proof. split; reflexivity. Qed.
(** Beyond 2^53 the value is rounded, a tie to the even neighbour. *)
Example parseInt_rounds :
  parseInt "9007199254740993" = of_Z 9007199254740992
  /\ parseInt "9007199254740995" = of_Z 9007199254740996
  /\ parseInt "-9007199254740993" = of_Z (-9007199254740992).
Proof. repeat split; vm_compute; reflexivity. Qed.

Lemma round_small (z : Z) :
  (Z.abs z < 2 ^ 53)%Z -> round_to_double z = of_Z z.
Proof.
  intros H. unfold round_to_double.
  destruct (Z.ltb_spec (Z.abs z) (2 ^ 53)) as [_|Hge]; [reflexivity|].
  exfalso. apply (Z.lt_irrefl (2 ^ 53)%Z). eapply Z.le_lt_trans; eassumption.
Qed.

Lemma round_is_a_number (z : Z) : round_to_double z <> NaN.
Proof.
  unfold round_to_double, of_Z.
  destruct (Z.abs z <? 2 ^ 53)%Z; [discriminate|].
  cbv zeta. destruct (_ <? 2 ^ 1024)%Z; discriminate.
Qed.





Lemma param_or_default (p : option string) (dflt : string) :
  p = None \/ p = Some "" -> param_or p dflt = dflt.
Proof.
  intros [-> | ->]; unfold param_or, js_or; simpl; destruct (truthy (VStr dflt)); reflexivity.
Qed.

Lemma param_or_given (s dflt : string) :
  s <> "" -> param_or (Some s) dflt = s.
Proof.
  intros H. unfold param_or, js_or. simpl.
  destruct (String.eqb_spec s ""); [contradiction|reflexivity].
Qed.

(** ** Reasoning on traces *)

Section TraceLogic.
Context {api : LocalAPI}.

Lemma every_ret P {A} (a : A) : every_event P (ret a).
Proof. intros w. constructor. Qed.

Lemma every_lift P {A} (r : result A) : every_event P (lift r).
Proof. intros w. constructor. Qed.

Lemma every_prop P v k : every_event P (prop v k).
Proof. apply every_lift. Qed.

Lemma every_emit (P : event -> Prop) ev : P ev -> every_event P (emit ev).
Proof. intros H w. repeat constructor. exact H. Qed.

Lemma every_bind P {A B} (m : M A) (k : A -> M B) :
  every_event P m -> (forall a, every_event P (k a)) ->
  every_event P (bind m k).
Proof.
  intros Hm Hk w. specialize (Hm w). unfold trace_of, bind in *.
  destruct (m w) as [[[a|e] w1] l1]; simpl in *; [|exact Hm].
  specialize (Hk a w1). destruct (k a w1) as [[r w2] l2]; simpl in *.
  apply Forall_app; split; assumption.
Qed.


Lemma every_getPayloadClient (P : event -> Prop) :
  (forall r, P (Init r)) -> every_event P getPayloadClient.
Proof.
  intros H w. unfold trace_of, getPayloadClient.
  destruct (getPayload (store w)); simpl. repeat constructor. apply H.
Qed.

Lemma every_payload_call (P : event -> Prop) m args :
  (forall r, P (Call m args r)) -> every_event P (payload_call m args).
Proof.
  intros H w. unfold trace_of, payload_call.
  destruct (payload m args (store w)); simpl. repeat constructor. apply H.
Qed.


Lemma every_Date P : every_event P Date_now_ISO.
Proof. intros w. constructor. Qed.

Lemma every_for_of P {A S} (xs : list A) (body : A -> S -> M S) :
  (forall x acc, every_event P (body x acc)) ->
  forall acc, every_event P (for_of xs body acc).
Proof.
  intros Hb. induction xs as [|x xs IH]; intros acc; simpl.
  - apply every_ret.
  - apply every_bind; [apply Hb | intros acc'; apply IH].
Qed.

Lemma every_some_falsy P body fields : every_event P (some_falsy body fields).
Proof.
  induction fields as [|f fields IH]; simpl.
  - apply every_ret.
  - apply every_bind; [apply every_prop|].
    intros v. destruct (negb (truthy v)); [apply every_ret | exact IH].
Qed.



End TraceLogic.


(** ** The [find] call of the GET handlers *)

Section GetHandlers.
Context {api : LocalAPI} {rt : Runtime}.




End GetHandlers.

(** ** Shape of the assembled conditions *)

Section Conditions.
Context {rt : Runtime}.


















End Conditions.

(** ** The listing routes: filters and pagination *)

Section Listing.
Context {api : LocalAPI} {rt : Runtime}.






End Listing.

(** ** Concrete runs of the listing routes *)

Section ListingRuns.
#[local] Existing Instance Mem.api.
#[local] Existing Instance Mem.rt.






End ListingRuns.

(** ** Exceptions end at the handler boundary *)

Section Boundary.
Context {api : LocalAPI} {rt : Runtime}.

Lemma thrown_in_nil (e : JsError) : ~ thrown_in [] e.
Proof. intros [H | (m & args & H)]; inversion H. Qed.

Lemma thrown_in_app (l1 l2 : list event) (e : JsError) :
  thrown_in (l1 ++ l2) e <-> thrown_in l1 e \/ thrown_in l2 e.
Proof.
  unfold thrown_in. split.
  - intros [H | (m & args & H)]; apply in_app_or in H as [H|H]; eauto 6.
  - intros [[H | (m & args & H)] | [H | (m & args & H)]];
      eauto 6 using in_or_app.
Qed.

Lemma thrown_in_single (ev : event) (e : JsError) :
  thrown_in [ev] e -> ev = Init (Throw e) \/ exists m args, ev = Call m args (Throw e).
Proof.
  intros [[H|[]] | (m & args & [H|[]])]; [left | right; exists m, args]; auto.
Qed.

Lemma message_or_spec (e : JsError) (fallback : string) :
  message_or e fallback = if message e =? "" then fallback else message e.
Proof.
  unfold message_or, js_or; simpl.
  destruct (message e =? ""); simpl; [|reflexivity].
  destruct (truthy (VStr fallback)); reflexivity.
Qed.

(** *** [faithful] is preserved by the constructs of the handler bodies *)

Lemma faithful_ret {A} (a : A) : faithful (ret a).
Proof. intros w e H. destruct (thrown_in_nil _ H). Qed.

Lemma faithful_lift {A} (r : result A) : faithful (lift r).
Proof. intros w e H. destruct (thrown_in_nil _ H). Qed.

Lemma faithful_prop v k : faithful (prop v k).
Proof. apply faithful_lift. Qed.

Lemma faithful_Date : faithful Date_now_ISO.
Proof. intros w e H. destruct (thrown_in_nil _ H). Qed.

Lemma faithful_emit ev : is_store_event ev = false -> faithful (emit ev).
Proof.
  intros Hev w e H. apply thrown_in_single in H as [-> | (m & args & ->)];
    discriminate Hev.
Qed.

Lemma faithful_revalidatePath p : faithful (revalidatePath p).
Proof. now apply faithful_emit. Qed.

Lemma faithful_getPayloadClient : faithful getPayloadClient.
Proof.
  intros w e H. unfold trace_of, outcome_of, getPayloadClient in *.
  destruct (getPayload (store w)) as [r s]; simpl in *.
  apply thrown_in_single in H as [H | (m & args & H)]; congruence.
Qed.

Lemma faithful_payload_call m args : faithful (payload_call m args).
Proof.
  intros w e H. unfold trace_of, outcome_of, payload_call in *.
  destruct (payload m args (store w)) as [r s]; simpl in *.
  apply thrown_in_single in H as [H | (m' & args' & H)]; congruence.
Qed.

Lemma faithful_bind {A B} (m : M A) (k : A -> M B) :
  faithful m -> (forall a, faithful (k a)) -> faithful (bind m k).
Proof.
  intros Hm Hk w e. specialize (Hm w e).
  unfold trace_of, outcome_of, bind in *.
  destruct (m w) as [[[a|e1] w1] l1]; simpl in *.
  - specialize (Hk a w1 e). destruct (k a w1) as [[r w2] l2]; simpl in *.
    intros H. apply thrown_in_app in H as [H|H]; [|auto].
    specialize (Hm H). discriminate Hm.
  - intros H. specialize (Hm H). congruence.
Qed.

Lemma faithful_for_of {A S} (xs : list A) (body : A -> S -> M S) :
  (forall x acc, faithful (body x acc)) ->
  forall acc, faithful (for_of xs body acc).
Proof.
  intros Hb. induction xs as [|x xs IH]; intros acc; simpl.
  - apply faithful_ret.
  - apply faithful_bind; [apply Hb | intros acc'; apply IH].
Qed.

Lemma faithful_some_falsy body fields : faithful (some_falsy body fields).
Proof.
  induction fields as [|f fields IH]; simpl.
  - apply faithful_ret.
  - apply faithful_bind; [apply faithful_prop|].
    intros v. destruct (negb (truthy v)); [apply faithful_ret | exact IH].
Qed.

Lemma faithful_pagination_of result : faithful (pagination_of result).
Proof.
  unfold pagination_of.
  repeat (apply faithful_bind; [apply faithful_prop | intros ?]).
  apply faithful_ret.
Qed.

Lemma faithful_findWithPagination c page limit :
  faithful (findWithPagination c page limit).
Proof.
  apply faithful_bind; [apply faithful_getPayloadClient|].
  intros _. apply faithful_payload_call.
Qed.

(** *** [returns] looks only at the last step *)



(** *** The single [try]/[catch] of a handler *)


End Boundary.

(** Opens the [try] block of a handler. *)
Ltac open_try :=
  unfold posts_GET_try, posts_POST_try, products_GET_try, products_POST_try,
    createPost_try, updatePost_try, deletePost_try, togglePostStatus_try,
    togglePostFeatured_try, updatePostReadTime_try, bulkUpdatePosts_try,
    createProduct_try, updateProduct_try, deleteProduct_try,
    toggleProductStock_try, toggleProductFeatured_try,
    updateProductInventory_try, bulkUpdateProducts_try.

Ltac keep_faith :=
  repeat first
    [ apply faithful_ret
    | apply faithful_prop
    | apply faithful_lift
    | apply faithful_Date
    | apply faithful_revalidatePath
    | apply faithful_getPayloadClient
    | apply faithful_payload_call
    | apply faithful_findWithPagination
    | apply faithful_pagination_of
    | apply faithful_some_falsy
    | apply faithful_for_of; intros ? ?
    | apply faithful_bind; [|intros ?]
    | match goal with
      | |- faithful (if ?b then _ else _) => destruct b
      end ].


Section Envelopes.
Context {api : LocalAPI} {rt : Runtime}.






End Envelopes.

Section BoundaryTheorem.
Context {api : LocalAPI} {rt : Runtime}.


(** ** Validation of the create paths *)

Lemma some_falsy_run (body : jsval) (fields : list string) (w : World) :
  readable body = true ->
  some_falsy body fields w = (Ok (some_required_falsy fields body), w, []).
Proof.
  intros Hb. induction fields as [|f fields IH]; [reflexivity|].
  cbn [some_falsy some_required_falsy existsb].
  unfold bind, prop, lift.
  assert (E : get_prop body f = Ok (field body f)).
  { unfold field. destruct body; try discriminate Hb; reflexivity. }
  rewrite E. destruct (negb (truthy (field body f))); [reflexivity|].
  rewrite IH. reflexivity.
Qed.

(** What the guard of the four create paths tests, for an input from
    which fields can be read: the handler returns the validation failure
    (status 400 on the routes) without any store call exactly when some
    declared-required field is falsy; otherwise it obtains the handle and
    calls [create] with the input as data.  An [undefined] or [null] input
    is answered by the catch block, again without a store call. *)
Lemma create_guard_tests_truthiness (c : creator) (body : jsval) (w : World) :
  let run := run_create c body w in
  let falsy := some_required_falsy (required_of c) body in
  if readable body then
    ((outcome_of run = Ok (validation_failure c) /\ store_events (trace_of run) = [])
     <-> falsy = true) /\
    (falsy = true -> run = (Ok (validation_failure c), w, [])) /\
    (falsy = false ->
     exists r0 rest,
       trace_of run = Init r0 :: rest /\
       (r0 = Ok tt ->
        exists r1 rest',
          rest = Call create (create_args (creator_collection c) body) r1 :: rest'))
  else
    store_events (trace_of run) = [] /\
    exists env,
      outcome_of run
      = Ok (match c with
            | RoutePosts | RouteProducts => Some 500%nat
            | ActionPost | ActionProduct => None
            end, env) /\
      field env "success" = VBool false.
Proof.
  intros run falsy.
  destruct (readable body) eqn:Hb.
  - assert (Hrun :
      (falsy = true -> run = (Ok (validation_failure c), w, [])) /\
      (falsy = false ->
       exists r0 rest,
         trace_of run = Init r0 :: rest /\
         (r0 = Ok tt ->
          exists r1 rest',
            rest = Call create (create_args (creator_collection c) body) r1 :: rest'))).
    { subst run falsy.
      destruct c; unfold run_create, posts_POST, posts_POST_try,
        products_POST, products_POST_try, createPost, createPost_try,
        createProduct, createProduct_try, try_catch, bind, lift;
        cbn [json required_of];
        rewrite (some_falsy_run _ _ _ Hb);
        (destruct (some_required_falsy _ body); split; intros E; try discriminate E;
         [ reflexivity | ]);
        unfold getPayloadClient, payload_call, revalidatePath, console_error, emit, ret;
        cbn [store draft clock];
        (destruct (getPayload (store w)) as [[[]|e0] s0]; cbn;
         [ destruct (payload create _ s0) as [[d|e1] s1]; cbn;
           eexists _, _; (split; [reflexivity|]); intros _; eexists _, _; reflexivity
         | eexists _, _; (split; [reflexivity|]); intros E'; discriminate E' ]). }
    destruct Hrun as [Hyes Hno]. split; [|split; assumption].
    split.
    + intros [_ Hev]. destruct falsy; [reflexivity|].
      destruct (Hno eq_refl) as (r0 & rest & Ht & _).
      rewrite Ht in Hev. discriminate Hev.
    + intros E. rewrite (Hyes E). split; reflexivity.
  - subst run.
    destruct c, body; try discriminate Hb; cbn;
      (split; [reflexivity|]); eexists;
      (split; [reflexivity|]); reflexivity.
Qed.

(** C5.  The failing input: a product with the four declared-required
    fields all supplied, at a price of 0.  On both create paths for
    products, whatever the store and the world, the guard [!price] reports
    the fields as missing: the validation failure is returned (status 400
    on the route), nothing is asked of the store and the world is left as
    it was.  The same product at a price of 25 passes the guard: the handle
    is asked for and, once obtained, [create] is called with the input. *)
Theorem C5_price_zero_is_reported_missing (w : World) :
  let product p :=
    VObj [("name", VStr "Sample"); ("slug", VStr "sample");
          ("price", VNum (of_Z p)); ("category", VStr "home")] in
  let missing :=
    VObj [("success", VBool false);
          ("error", VStr "Missing required fields: name, slug, price, category")] in
  all_required_supplied products_required (product 0%Z) = true /\
  createProduct (product 0%Z) w = (Ok missing, w, []) /\
  products_POST (mkRequest [] [] (Ok (product 0%Z))) w
  = (Ok (JsonResponse 400 missing), w, []) /\
  all_required_supplied products_required (product 25%Z) = true /\
  exists r0 rest,
    trace_of (createProduct (product 25%Z) w) = Init r0 :: rest /\
    (r0 = Ok tt ->
     exists r1 rest',
       rest = Call create (create_args "products" (product 25%Z)) r1 :: rest').
Proof.
  intros product missing.
  split; [reflexivity|]. split; [|split; [|split; [reflexivity|]]].
  - pose proof (create_guard_tests_truthiness ActionProduct (product 0%Z) w) as H.
    cbv zeta in H. change (readable (product 0%Z)) with true in H. cbv iota in H.
    destruct H as (_ & Hyes & _). specialize (Hyes eq_refl).
    unfold run_create, validation_failure, bind, ret in Hyes.
    destruct (createProduct (product 0%Z) w) as [[[env|e] w1] l1];
      [|discriminate Hyes].
    cbn [missing_message] in Hyes. rewrite app_nil_r in Hyes.
    injection Hyes as -> -> ->. reflexivity.
  - pose proof (create_guard_tests_truthiness RouteProducts (product 0%Z) w) as H.
    cbv zeta in H. change (readable (product 0%Z)) with true in H. cbv iota in H.
    destruct H as (_ & Hyes & _). specialize (Hyes eq_refl).
    unfold run_create, validation_failure, bind, ret in Hyes.
    destruct (products_POST (mkRequest [] [] (Ok (product 0%Z))) w)
      as [[[[st b|st t|p]|e] w1] l1]; try discriminate Hyes;
      cbn [missing_message] in Hyes; rewrite app_nil_r in Hyes;
      injection Hyes as -> -> -> ->. reflexivity.
  - pose proof (create_guard_tests_truthiness ActionProduct (product 25%Z) w) as H.
    cbv zeta in H. change (readable (product 25%Z)) with true in H. cbv iota in H.
    destruct H as (_ & _ & Hno). destruct (Hno eq_refl) as (r0 & rest & Ht & Hnext).
    exists r0, rest. split; [|exact Hnext].
    rewrite <- Ht. unfold run_create, trace_of, bind, ret.
    destruct (createProduct (product 25%Z) w) as [[[env|e] w1] l1]; simpl;
      [rewrite app_nil_r; reflexivity | reflexivity].
Qed.

End BoundaryTheorem.

(** ** Bulk updates *)

Section Bulk.
Context {api : LocalAPI} {rt : Runtime}.

Lemma commit_length collection updates ids s s' docs :
  commit collection updates ids s = Some (s', docs) ->
  List.length docs = List.length ids.
Proof.
  revert s docs. induction ids as [|id ids IH]; intros s docs; simpl.
  - intros H. injection H as _ <-. reflexivity.
  - destruct (payload update _ s) as [[d|e] s1]; [|discriminate].
    destruct (commit collection updates ids s1) as [[s2 ds]|] eqn:E; [|discriminate].
    intros H. injection H as -> <-. simpl. f_equal. eapply IH, E.
Qed.

(** The loop commits the writes of a prefix and stops at the write that
    throws: nothing is issued for the ids behind it. *)
Lemma for_of_stops collection updates (pre post : list string) (id : string)
    (s sk s' : Store) (docs : list jsval) (e : JsError) (acc : list jsval) d c :
  commit collection updates pre s = Some (sk, docs) ->
  payload update (update_args collection id updates) sk = (Throw e, s') ->
  for_of (pre ++ id :: post) (one_write collection updates) acc (mkWorld s d c)
  = (Throw e, mkWorld s' d c,
     writes collection updates pre docs
     ++ [Call update (update_args collection id updates) (Throw e)]).
Proof.
  revert s docs acc. induction pre as [|x pre IH]; intros s docs acc Hc Hk.
  - simpl in Hc. injection Hc as -> <-.
    simpl. unfold bind, one_write, bind, payload_call. simpl. rewrite Hk. reflexivity.
  - simpl in Hc.
    destruct (payload update (update_args collection x updates) s)
      as [[dx|ex] s1] eqn:Ex; [|discriminate].
    destruct (commit collection updates pre s1) as [[s2 ds]|] eqn:E; [|discriminate].
    injection Hc as -> <-.
    cbn [app for_of]. unfold bind at 1. unfold one_write at 1.
    unfold bind at 1. unfold payload_call at 1. cbn [store draft clock].
    rewrite Ex. cbn [ret app].
    rewrite (IH s1 ds (acc ++ [dx]) E Hk). reflexivity.
Qed.

(** C3.  When the handle is obtained, the writes for the first [k] ids
    succeed and the write for the id at position [k] throws, a bulk update
    has issued exactly those [k + 1] writes, one per id in list order, and
    nothing after them (no further write, no compensating write, no
    revalidation); the store is the one the committed prefix and the failed
    call left, and the action returns the failure envelope. *)
Theorem C3_bulk_update_stops_at_failure (b : bulk) (ids : list string)
    (updates : jsval) (w : World) (k : nat) (id_k : string)
    (s0 sk s' : Store) (docs : list jsval) (e : JsError) :
  getPayload (store w) = (Ok tt, s0) ->
  commit (bulk_collection b) updates (firstn k ids) s0 = Some (sk, docs) ->
  nth_error ids k = Some id_k ->
  payload update (update_args (bulk_collection b) id_k updates) sk = (Throw e, s') ->
  run_bulk b ids updates w
  = (Ok (VObj [("success", VBool false);
               ("error", VStr (if message e =? ""
                               then bulk_fallback b else message e))]),
     mkWorld s' (draft w) (clock w),
     Init (Ok tt)
     :: writes (bulk_collection b) updates (firstn k ids) docs
     ++ [Call update (update_args (bulk_collection b) id_k updates) (Throw e);
         ConsoleError (bulk_label b) e]) /\
  List.length (writes (bulk_collection b) updates (firstn k ids) docs) = k.
Proof.
  intros Hinit Hcommit Hnth Hthrow.
  destruct (nth_error_split _ _ Hnth) as (pre & post & Hids & Hlen).
  assert (Hpre : firstn k ids = pre).
  { rewrite Hids, <- Hlen, <- (Nat.add_0_r (List.length pre)).
    rewrite firstn_app_2. simpl. apply app_nil_r. }
  rewrite Hpre in *. split.
  - assert (Hloop := fun body_acc =>
              for_of_stops (bulk_collection b) updates pre post id_k
                s0 sk s' docs e body_acc (draft w) (clock w) Hcommit Hthrow).
    destruct b; unfold run_bulk, bulkUpdatePosts, bulkUpdatePosts_try,
      bulkUpdateProducts, bulkUpdateProducts_try, try_catch;
      unfold bind at 1; unfold getPayloadClient at 1; rewrite Hinit;
      cbn [store draft clock];
      unfold bind at 1; rewrite Hids;
      (change (for_of (pre ++ id_k :: post) _ [])
         with (for_of (pre ++ id_k :: post)
                 (one_write (bulk_collection _) updates) [])
       || idtac);
      simpl bulk_collection in *;
      unfold one_write, update_args in Hloop |- *;
      rewrite (Hloop []);
      unfold console_error, emit, ret, bind, action_failure;
      rewrite message_or_spec; cbn [app];
      rewrite <- app_assoc; reflexivity.
  - unfold writes. rewrite length_map, length_combine.
    rewrite (commit_length _ _ _ _ _ _ Hcommit), Nat.min_id. exact Hlen.
Qed.

End Bulk.

(** ** Toggles and the inventory action *)

(** Unfolds the monad one layer at a time in the equation of a run. *)
Ltac step_in H :=
  cbv beta iota delta
    [try_catch bind ret lift emit prop getPayloadClient payload_call
     revalidatePath console_error Date_now_ISO spread] in H;
  cbn [store draft clock app] in H.

Section ReadModifyWrite.
Context {api : LocalAPI} {rt : Runtime}.

Lemma field_get (v : jsval) (k : string) (x : jsval) :
  field v k = x -> x <> VUndefined -> get_prop v k = Ok x.
Proof.
  unfold field. destruct (get_prop v k); intros <- H; [reflexivity|].
  now destruct H.
Qed.

Lemma get_field (v : jsval) (k : string) (x : jsval) :
  get_prop v k = Ok x -> field v k = x.
Proof. unfold field. now intros ->. Qed.

Lemma in_domain_defined (t : toggle) (v : jsval) :
  in_domain t v -> v <> VUndefined.
Proof. destruct t; simpl; intros H; [destruct H as [-> | ->] | destruct H as [b ->] ..]; discriminate. Qed.

Lemma flipped_in_domain (t : toggle) (v : jsval) :
  in_domain t v -> in_domain t (flipped t v).
Proof.
  destruct t; simpl; try (intros _; eexists; reflexivity).
  intros [-> | ->]; simpl; auto.
Qed.

Lemma flipped_twice (t : toggle) (v : jsval) :
  in_domain t v -> flipped t (flipped t v) = v.
Proof.
  destruct t; simpl.
  - intros [-> | ->]; reflexivity.
  - intros [b ->]. simpl. now rewrite negb_involutive.
  - intros [b ->]. simpl. now rewrite negb_involutive.
  - intros [b ->]. simpl. now rewrite negb_involutive.
Qed.

Lemma failure_not_success (e : JsError) (fallback : string) :
  field (action_failure e fallback) "success" <> VBool true.
Proof. discriminate. Qed.

Lemma readable_get (v : jsval) (k k' : string) (x : jsval) :
  get_prop v k = Ok x -> get_prop v k' = Ok (field v k').
Proof.
  unfold field. destruct v; try discriminate; intros _; reflexivity.
Qed.

Lemma flipped_differs (t : toggle) (v : jsval) :
  in_domain t v -> flipped t v <> v.
Proof.
  destruct t; simpl.
  - intros [-> | ->]; discriminate.
  - intros [[] ->]; discriminate.
  - intros [[] ->]; discriminate.
  - intros [[] ->]; discriminate.
Qed.

(** One invocation on a record that can be read, on a store that accepts
    updates and honours them: the action succeeds, the record is read, the
    flipped value is written, and it is what the store then holds. *)
Lemma toggle_once (t : toggle) (id : string) (w : World)
    (doc : jsval) (s : Store) :
  handle_is_available -> updates_are_accepted -> writes_are_read_back ->
  payload findByID (by_id (toggle_collection t) id) (store w) = (Ok doc, s) ->
  in_domain t (field doc (toggle_field t)) ->
  exists env data r doc',
    outcome_of (run_toggle t id w) = Ok env /\
    field env "success" = VBool true /\
    call_events (trace_of (run_toggle t id w))
    = [Call findByID (by_id (toggle_collection t) id) (Ok doc);
       Call update (update_args (toggle_collection t) id (VObj data)) (Ok r)] /\
    assoc (toggle_field t) data = Some (flipped t (field doc (toggle_field t))) /\
    payload findByID (by_id (toggle_collection t) id)
      (store (world_of (run_toggle t id w)))
    = (Ok doc', store (world_of (run_toggle t id w))) /\
    field doc' (toggle_field t) = flipped t (field doc (toggle_field t)).
Proof.
  intros Hinit Hacc Hlaw Hdoc Hdom.
  pose proof (field_get _ _ _ eq_refl (in_domain_defined _ _ Hdom)) as Hget.
  pose proof (readable_get _ _ "publishedDate" _ Hget) as Hdate.
  pose proof (Hinit (store w)) as Hi.
  remember (run_toggle t id w) as run eqn:Hrun.
  unfold writes_are_read_back, updates_are_accepted, update_args, by_id in *.
  destruct t;
    cbv beta iota delta [run_toggle
                         togglePostStatus togglePostStatus_try
                         togglePostFeatured togglePostFeatured_try
                         toggleProductStock toggleProductStock_try
                         toggleProductFeatured toggleProductFeatured_try
                         toggle_collection toggle_field] in *;
    step_in Hrun; rewrite Hi in Hrun; step_in Hrun;
    rewrite Hdoc in Hrun; step_in Hrun; rewrite Hget in Hrun; step_in Hrun.
  all: try (destruct Hdom as [E | E]; rewrite E in *;
            cbn [is_str String.eqb Ascii.eqb Bool.eqb] in Hrun;
            try (rewrite Hdate in Hrun;
                 destruct (negb (truthy (field doc "publishedDate"))));
            step_in Hrun).
  all: match type of Hrun with
       | context [payload update
                    (VObj [("collection", VStr ?c); ("id", VStr ?i);
                           ("data", VObj ?d)]) ?st] =>
           destruct (Hacc c i _ _ _ d Hdoc) as (upd & s1 & Hupd & Hread)
       end;
       rewrite Hupd in Hrun; step_in Hrun;
       assert (Hu : forall k, get_prop upd k = Ok (field upd k))
         by (intros k; unfold field;
             destruct upd; try discriminate Hread; reflexivity);
       rewrite Hu in Hrun; step_in Hrun.
  all: subst run;
       cbn [outcome_of trace_of world_of fst snd store call_events filter];
       destruct (Hlaw _ _ _ _ _ _ Hupd) as (doc' & Hback & Hfields);
       eexists _, _, _, doc';
       (split; [reflexivity|]); (split; [reflexivity|]);
       (split; [reflexivity|]); (split; [reflexivity|]);
       (split; [exact Hback|]);
       apply get_field, Hfields; reflexivity.
Qed.

(** C4.  On a store whose handle can be obtained, which accepts updates of
    a record it can read and honours its writes, and for a record whose
    toggled field holds a value of the data model (a boolean, or one of the
    two status names): two successive invocations of a toggle both succeed;
    after the first the record holds the flipped value, which differs from
    the original, and after the second it holds the original value again.
    Each invocation is a read-modify-write: one [findByID], then one
    [update] that writes the flipped value of what was read. *)
Theorem C4_toggle_twice_restores (t : toggle) (id : string) (w : World)
    (doc : jsval) (s : Store) :
  handle_is_available -> updates_are_accepted -> writes_are_read_back ->
  payload findByID (by_id (toggle_collection t) id) (store w) = (Ok doc, s) ->
  in_domain t (field doc (toggle_field t)) ->
  let first := run_toggle t id w in
  let second := run_toggle t id (world_of first) in
  (exists env1 env2,
     outcome_of first = Ok env1 /\ field env1 "success" = VBool true /\
     outcome_of second = Ok env2 /\ field env2 "success" = VBool true) /\
  (exists doc1,
     payload findByID (by_id (toggle_collection t) id) (store (world_of first))
     = (Ok doc1, store (world_of first)) /\
     field doc1 (toggle_field t) = flipped t (field doc (toggle_field t)) /\
     field doc1 (toggle_field t) <> field doc (toggle_field t)) /\
  (exists doc2,
     payload findByID (by_id (toggle_collection t) id) (store (world_of second))
     = (Ok doc2, store (world_of second)) /\
     field doc2 (toggle_field t) = field doc (toggle_field t)) /\
  (exists data1 r1 doc1 data2 r2,
     call_events (trace_of first)
     = [Call findByID (by_id (toggle_collection t) id) (Ok doc);
        Call update (update_args (toggle_collection t) id (VObj data1)) (Ok r1)] /\
     assoc (toggle_field t) data1 = Some (flipped t (field doc (toggle_field t))) /\
     call_events (trace_of second)
     = [Call findByID (by_id (toggle_collection t) id) (Ok doc1);
        Call update (update_args (toggle_collection t) id (VObj data2)) (Ok r2)] /\
     assoc (toggle_field t) data2 = Some (flipped t (field doc1 (toggle_field t)))).
Proof.
  intros Hinit Hacc Hlaw Hdoc Hdom first second.
  destruct (toggle_once t id w doc s Hinit Hacc Hlaw Hdoc Hdom)
    as (env1 & data1 & r1 & doc1 & Ho1 & Hs1 & Hc1 & Ha1 & Hread1 & Hf1).
  fold first in Ho1, Hc1, Hread1.
  assert (Hdom1 : in_domain t (field doc1 (toggle_field t))).
  { rewrite Hf1. apply flipped_in_domain, Hdom. }
  destruct (toggle_once t id (world_of first) doc1 _ Hinit Hacc Hlaw Hread1 Hdom1)
    as (env2 & data2 & r2 & doc2 & Ho2 & Hs2 & Hc2 & Ha2 & Hread2 & Hf2).
  fold second in Ho2, Hc2, Hread2.
  split; [|split; [|split]].
  - exists env1, env2. repeat split; assumption.
  - exists doc1. split; [exact Hread1|]. split; [exact Hf1|].
    rewrite Hf1. apply flipped_differs, Hdom.
  - exists doc2. split; [exact Hread2|].
    rewrite Hf2, Hf1. apply flipped_twice, Hdom.
  - exists data1, r1, doc1, data2, r2. repeat split; assumption.
Qed.

End ReadModifyWrite.

Section Inventory.
Context {api : LocalAPI} {rt : Runtime}.


End Inventory.

(** ** The in-memory store honours its writes *)

Section MemLaws.
#[local] Existing Instance Mem.api.
#[local] Existing Instance Mem.rt.

Lemma assoc_app_l {A} (k : string) (a b : list (string * A)) (v : A) :
  assoc k a = Some v -> assoc k (a ++ b) = Some v.
Proof.
  induction a as [|[k' x] a IH]; simpl; [discriminate|].
  destruct (k' =? k); auto.
Qed.

Lemma lookup_replace (c id : string) (d d' : list (string * jsval)) (st : Mem.docs) :
  Mem.lookup c id st = Some d ->
  Mem.lookup c id (Mem.replace c id d' st) = Some d'.
Proof.
  induction st as [|[[c1 id1] d1] st IH]; simpl; [discriminate|].
  destruct ((c1 =? c) && (id1 =? id)) eqn:E; simpl; rewrite E; auto.
Qed.

Lemma mem_init_keeps_store : init_keeps_store.
Proof. intros s. reflexivity. Qed.

Lemma mem_handle_is_available : handle_is_available.
Proof. intros s. reflexivity. Qed.

Lemma mem_updates_are_accepted : updates_are_accepted.
Proof.
  intros c id st doc st1 data. unfold update_args, by_id. simpl.
  unfold Mem.arg_str, field. simpl.
  destruct (Mem.lookup c id st) as [d|] eqn:E; [|discriminate].
  intros [= _ <-]. rewrite E. eexists _, _. split; reflexivity.
Qed.

Lemma mem_writes_are_read_back : writes_are_read_back.
Proof.
  intros c id data st r st'. unfold update_args, by_id. simpl.
  unfold Mem.arg_str, field. simpl.
  destruct (Mem.lookup c id st) as [d|] eqn:E; [|discriminate].
  intros [= <- <-].
  rewrite (lookup_replace _ _ _ _ _ E).
  eexists. split; [reflexivity|].
  intros k v Hk. simpl. unfold Mem.merge. rewrite (assoc_app_l _ _ _ _ Hk).
  reflexivity.
Qed.

End MemLaws.

(** ** The preview routes *)

Section PreviewRoutes.
Context {api : LocalAPI} {rt : Runtime}.

(** C8 (as amended).  The preview route, once the handle is obtained: a
    request without a path is answered 404 and the draft-mode flag is not
    touched; with a path, a missing or invalid token is answered 403 and
    draft mode is disabled; with a valid token, when collection and slug are
    both given and the store finds no such document the answer is 404 and
    the flag is not touched; in every other case draft mode is enabled and
    the request is redirected to the path. *)
Theorem C8_preview_state_map (req : request) (w : World) (s0 : Store) :
  getPayload (store w) = (Ok tt, s0) ->
  let run := preview_GET req w in
  match preview_state_of req s0 with
  | NoPath =>
      outcome_of run = Ok (TextResponse 404 "No path provided") /\
      draft (world_of run) = draft w
  | NoToken | TokenInvalid =>
      outcome_of run = Ok (TextResponse 403 "You are not allowed to preview this page") /\
      draft (world_of run) = false
  | DocumentAbsent =>
      outcome_of run = Ok (TextResponse 404 "Document not found") /\
      draft (world_of run) = draft w
  | Proceed =>
      outcome_of run
      = Ok (Redirect (param_str (searchParams_get (query req) "path"))) /\
      draft (world_of run) = true
  end.
Proof.
  intros Hinit run.
  remember (preview_GET req w) as r0 eqn:Hrun. subst run.
  unfold preview_GET, preview_state_of, preview_find_args, docs_length,
    redirect, forbidden in *.
  cbv beta iota delta
    [try_catch bind ret lift prop getPayloadClient payload_call
     logger_error draftMode_set emit] in Hrun.
  rewrite Hinit in Hrun.
  cbv beta iota zeta in Hrun. cbn [store draft clock app] in Hrun.
  destruct (negb (given (searchParams_get (query req) "path")));
    [subst r0; split; reflexivity|].
  destruct (negb (given (assoc payloadToken (cookies req))));
    [subst r0; split; reflexivity|].
  destruct (jwt_verify _ payload_secret) as [user|e];
    [|subst r0; split; reflexivity].
  cbv beta iota zeta in Hrun. cbn [store draft clock app] in Hrun.
  destruct (negb (truthy user)); [subst r0; split; reflexivity|].
  destruct (given (searchParams_get (query req) "collection")
            && given (searchParams_get (query req) "slug"));
    [|subst r0; split; reflexivity].
  cbv beta iota zeta in Hrun. cbn [store draft clock app] in Hrun.
  destruct (payload find _ s0) as [[found|e] s1];
    [|subst r0; split; reflexivity].
  destruct (get_prop found "docs") as [docs|e];
    [|subst r0; split; reflexivity].
  destruct (get_prop docs "length") as [len|e];
    [|subst r0; split; reflexivity].
  destruct (truthy len); subst r0; split; reflexivity.
Qed.

(** C10.  The exit route disables draft mode whatever the query string is,
    and only then redirects, to the [path] parameter as it was received,
    or to ["/"] when the parameter is absent or empty. *)
Theorem C10_exit_draft (req : request) (w : World) :
  let path := searchParams_get (query req) "path" in
  exists target,
    exit_draft_GET req w
    = (Ok (Redirect target), mkWorld (store w) false (clock w), [DraftMode false]) /\
    (forall s, path = Some s -> s <> "" -> target = s) /\
    (path = None \/ path = Some "" -> target = "/").
Proof.
  intros path. exists (param_or path "/"). split; [reflexivity|]. split.
  - intros s -> H. apply param_or_given, H.
  - apply param_or_default.
Qed.

End PreviewRoutes.

(** ** Concrete runs of the actions and of the preview routes *)

Section Runs.
#[local] Existing Instance Mem.api.
#[local] Existing Instance Mem.rt.

(** Three ids of which the second does not exist: the first write is
    committed, the third is never issued, the action fails. *)
Lemma C3_witness :
  let ids := ["hello"; "ghost"; "world"] in
  let updates := VObj [("featured", VBool true)] in
  exists w' docs,
    run_bulk BulkPosts ids updates Mem.world0
    = (Ok (VObj [("success", VBool false); ("error", VStr "Not Found")]), w',
       Init (Ok tt)
       :: writes "posts" updates ["hello"] docs
       ++ [Call update (update_args "posts" "ghost" updates) (Throw Mem.not_found);
           ConsoleError "Error bulk updating posts:" Mem.not_found]) /\
    option_map (assoc "featured") (Mem.lookup "posts" "hello" (store w'))
    = Some (Some (VBool true)) /\
    option_map (assoc "featured") (Mem.lookup "posts" "hello" (store Mem.world0))
    = Some (Some (VBool false)).
Proof.
  intros ids updates.
  edestruct (C3_bulk_update_stops_at_failure BulkPosts ids updates Mem.world0
               1 "ghost") as [Hrun _];
    [reflexivity | reflexivity | reflexivity | reflexivity |].
  eexists _, _. split; [exact Hrun|]. split; reflexivity.
Defined.

Lemma C4_witness :
  let twice t id :=
    let first := run_toggle t id Mem.world0 in
    let second := run_toggle t id (world_of first) in
    (option_map (assoc (toggle_field t))
       (Mem.lookup (toggle_collection t) id (store Mem.world0)),
     option_map (assoc (toggle_field t))
       (Mem.lookup (toggle_collection t) id (store (world_of first))),
     option_map (assoc (toggle_field t))
       (Mem.lookup (toggle_collection t) id (store (world_of second)))) in
  twice PostStatus "hello"
  = (Some (Some (VStr "draft")), Some (Some (VStr "published")),
     Some (Some (VStr "draft"))) /\
  twice PostFeatured "world"
  = (Some (Some (VBool true)), Some (Some (VBool false)),
     Some (Some (VBool true))) /\
  twice ProductStock "lamp"
  = (Some (Some (VBool true)), Some (Some (VBool false)),
     Some (Some (VBool true))) /\
  twice ProductFeatured "desk"
  = (Some (Some (VBool true)), Some (Some (VBool false)),
     Some (Some (VBool true))).
Proof.
  intros twice.
  assert (H : forall t id doc v,
             payload findByID (by_id (toggle_collection t) id) (store Mem.world0)
             = (Ok doc, store Mem.world0) ->
             field doc (toggle_field t) = v -> in_domain t v ->
             option_map (assoc (toggle_field t))
               (Mem.lookup (toggle_collection t) id (store Mem.world0))
             = Some (Some v) ->
             (forall st d, payload findByID (by_id (toggle_collection t) id) st
                           = (Ok d, st) ->
                           option_map (assoc (toggle_field t))
                             (Mem.lookup (toggle_collection t) id st)
                           = Some (Some (field d (toggle_field t))) \/
                           field d (toggle_field t) = VUndefined) ->
             twice t id = (Some (Some v), Some (Some (flipped t v)), Some (Some v))).
  { intros t id doc v Hdoc Hv Hdom H0 Hlook. subst v.
    destruct (C4_toggle_twice_restores t id Mem.world0 doc _
                mem_handle_is_available mem_updates_are_accepted
                mem_writes_are_read_back Hdoc Hdom)
      as (_ & (doc1 & Hr1 & Hf1 & _) & (doc2 & Hr2 & Hf2) & _).
    unfold twice. rewrite H0.
    destruct (Hlook _ _ Hr1) as [-> | E];
      [ | rewrite Hf1 in E; destruct (in_domain_defined _ _ (flipped_in_domain _ _ Hdom) E) ].
    destruct (Hlook _ _ Hr2) as [-> | E];
      [ | rewrite Hf2 in E; destruct (in_domain_defined _ _ Hdom E) ].
    rewrite Hf1, Hf2. reflexivity. }
  assert (Hlook : forall t id st d,
             payload findByID (by_id (toggle_collection t) id) st = (Ok d, st) ->
             option_map (assoc (toggle_field t))
               (Mem.lookup (toggle_collection t) id st)
             = Some (Some (field d (toggle_field t))) \/
             field d (toggle_field t) = VUndefined).
  { intros t id st d. unfold by_id. simpl. unfold Mem.arg_str, field. simpl.
    destruct (Mem.lookup (toggle_collection t) id st) as [fs|]; [|discriminate].
    intros [= <-]. simpl. destruct (assoc (toggle_field t) fs); auto. }
  split; [|split; [|split]].
  - eapply (H PostStatus "hello");
      [reflexivity | reflexivity | left; reflexivity | reflexivity | apply Hlook].
  - eapply (H PostFeatured "world");
      [reflexivity | reflexivity | eexists; reflexivity | reflexivity | apply Hlook].
  - eapply (H ProductStock "lamp");
      [reflexivity | reflexivity | eexists; reflexivity | reflexivity | apply Hlook].
  - eapply (H ProductFeatured "desk");
      [reflexivity | reflexivity | eexists; reflexivity | reflexivity | apply Hlook].
Defined.



(** A request with neither token nor path, while draft mode is on: the
    answer is 404 and draft mode stays on. *)
Lemma C8_counterexample :
  let req := mkRequest [] [] (Ok VUndefined) in
  let w := mkWorld Mem.sample true "2025-01-01T00:00:00.000Z" in
  assoc payloadToken (cookies req) = None /\
  outcome_of (preview_GET req w) = Ok (TextResponse 404 "No path provided") /\
  outcome_of (preview_GET req w) <> Ok (TextResponse 403 "You are not allowed to preview this page") /\
  draft (world_of (preview_GET req w)) = true.
Proof.
  intros req w. repeat split; try reflexivity. intros H; discriminate H.
Qed.

Lemma C8_witness :
  let token := [("payload-token", "signed:s3cret")] in
  let w := mkWorld Mem.sample true "2025-01-01T00:00:00.000Z" in
  let present :=
    mkRequest [("path", "/posts/hello"); ("collection", "posts"); ("slug", "hello")]
              token (Ok VUndefined) in
  let absent :=
    mkRequest [("path", "/posts/nope"); ("collection", "posts"); ("slug", "nope")]
              token (Ok VUndefined) in
  let anonymous := mkRequest [("path", "/posts/hello")] [] (Ok VUndefined) in
  let forged :=
    mkRequest [("path", "/posts/hello")] [("payload-token", "forged")] (Ok VUndefined) in
  (outcome_of (preview_GET present Mem.world0) = Ok (Redirect "/posts/hello") /\
   draft (world_of (preview_GET present Mem.world0)) = true) /\
  (outcome_of (preview_GET absent w) = Ok (TextResponse 404 "Document not found") /\
   draft (world_of (preview_GET absent w)) = true) /\
  (outcome_of (preview_GET anonymous w)
   = Ok (TextResponse 403 "You are not allowed to preview this page") /\
   draft (world_of (preview_GET anonymous w)) = false) /\
  (outcome_of (preview_GET forged w)
   = Ok (TextResponse 403 "You are not allowed to preview this page") /\
   draft (world_of (preview_GET forged w)) = false).
Proof.
  intros token w present absent anonymous forged.
  split; [|split; [|split]].
  - exact (C8_preview_state_map present Mem.world0 Mem.sample eq_refl).
  - exact (C8_preview_state_map absent w Mem.sample eq_refl).
  - exact (C8_preview_state_map anonymous w Mem.sample eq_refl).
  - exact (C8_preview_state_map forged w Mem.sample eq_refl).
Defined.


Lemma C10_witness :
  let w := mkWorld Mem.sample true "2025-01-01T00:00:00.000Z" in
  exit_draft_GET (Mem.get_request [("path", "https://elsewhere.example/")]) w
  = (Ok (Redirect "https://elsewhere.example/"),
     mkWorld Mem.sample false "2025-01-01T00:00:00.000Z", [DraftMode false]) /\
  exit_draft_GET (Mem.get_request [("path", "")]) w
  = (Ok (Redirect "/"),
     mkWorld Mem.sample false "2025-01-01T00:00:00.000Z", [DraftMode false]).
Proof.
  intros w. split.
  - destruct (C10_exit_draft (Mem.get_request [("path", "https://elsewhere.example/")]) w)
      as (target & Hrun & Hgiven & _).
    rewrite Hrun, (Hgiven _ eq_refl); [reflexivity|].
    intros H; discriminate H.
  - destruct (C10_exit_draft (Mem.get_request [("path", "")]) w)
      as (target & Hrun & _ & Hdefault).
    rewrite Hrun, Hdefault; [reflexivity|]. right; reflexivity.
Defined.

End Runs.

(* ===================================================================== *)
(** * Further properties of the helpers, actions, routes and pages *)
(* ===================================================================== *)

(** ** The operation helpers *)

Section Helpers.
Context {api : LocalAPI} {rt : Runtime}.

(** X1.  An operation helper obtains the handle and then makes one call,
    of its own method, on its own collection; it has no [catch]: when
    [getPayload] throws nothing is asked of the store and the helper throws
    that error, and when the call throws the helper throws that error. *)
Theorem X1_helpers_do_not_catch (h : helper_call) (w : World) :
  let run := run_helper h w in
  (exists e, trace_of run = [Init (Throw e)] /\ outcome_of run = Throw e) \/
  (exists args r,
     trace_of run = [Init (Ok tt); Call (helper_method h) args r] /\
     field args "collection" = VStr (helper_collection h) /\
     forall e, r = Throw e -> outcome_of run = Throw e).
Proof.
  intros run. remember (run_helper h w) as r0 eqn:Hrun. subst run.
  destruct h;
    cbv beta iota delta
      [run_helper findAll findWithPagination findWhere findById findBySlug
       createDocument updateDocument deleteDocument countDocuments
       findWithComplexQuery searchDocuments helper_method helper_collection] in *;
    step_in Hrun;
    (destruct (getPayload (store w)) as [[[]|e0] s0]; step_in Hrun;
     [ right | left; exists e0; subst r0; split; reflexivity ]);
    match type of Hrun with
    | context [payload ?m ?a s0] =>
        destruct (payload m a s0) as [[v|e1] s1]; step_in Hrun
    end;
    repeat match type of Hrun with
           | context [match get_prop ?x ?k with _ => _ end] =>
               destruct (get_prop x k); step_in Hrun
           | context [match get_first ?x with _ => _ end] =>
               destruct (get_first x); step_in Hrun
           end;
    eexists _, _; subst r0; (split; [cbn; reflexivity|]);
    (split; [reflexivity|]); intros err H; try discriminate H;
    injection H as <-; reflexivity.
Qed.

End Helpers.

Section HelperResults.
Context {api : LocalAPI} {rt : Runtime}.

(** X2.  [findBySlug] asks for at most one document whose slug equals the
    given one and returns the first document found, or [null]: never
    [undefined], and [null] when the store finds nothing. *)
Theorem X2_findBySlug_first_or_null (collection slug : string) (w : World) :
  let run := findBySlug collection slug w in
  let args := VObj [("collection", VStr collection);
                    ("where", cond "slug" "equals" (VStr slug));
                    ("limit", VNum (of_Z 1))] in
  (forall r, outcome_of run = Ok r -> r = VNull \/ truthy r = true) /\
  (forall m a r, In (Call m a r) (trace_of run) -> m = find /\ a = args) /\
  (forall s0 found s1 docs,
     getPayload (store w) = (Ok tt, s0) ->
     payload find args s0 = (Ok found, s1) ->
     get_prop found "docs" = Ok (VArr docs) ->
     outcome_of run
     = Ok (match docs with
           | d :: _ => if truthy d then d else VNull
           | [] => VNull
           end)).
Proof.
  intros run args. subst args.
  remember (findBySlug collection slug w) as r0 eqn:Hrun. subst run.
  unfold findBySlug in Hrun. step_in Hrun.
  destruct (getPayload (store w)) as [[[]|e0] s0']; step_in Hrun.
  - destruct (payload find _ s0') as [[found'|e1] s1'] eqn:Hfind; step_in Hrun.
    + destruct (get_prop found' "docs") as [docs'|e2] eqn:Hdocs; step_in Hrun.
      * destruct (get_first docs') as [first|e3] eqn:Hfirst; step_in Hrun;
          subst r0; cbn [outcome_of trace_of fst snd]; (split; [|split]).
        -- intros r [= <-]. unfold js_or.
           destruct (truthy first) eqn:E; [right; exact E | left; reflexivity].
        -- intros m a r [H|[H|[]]]; [discriminate H|]. injection H as <- <- _. auto.
        -- intros s0 found s1 docs [= <-]. rewrite Hfind. intros [= <- _].
           rewrite Hdocs. intros [= ->]. simpl in Hfirst. injection Hfirst as <-.
           unfold js_or. destruct docs as [|d ?]; reflexivity.
        -- intros r H; discriminate H.
        -- intros m a r [H|[H|[]]]; [discriminate H|]. injection H as <- <- _. auto.
        -- intros s0 found s1 docs [= <-]. rewrite Hfind. intros [= <- _].
           rewrite Hdocs. intros [= ->]. discriminate Hfirst.
      * subst r0; cbn [outcome_of trace_of fst snd]; (split; [|split]).
        -- intros r H; discriminate H.
        -- intros m a r [H|[H|[]]]; [discriminate H|]. injection H as <- <- _. auto.
        -- intros s0 found s1 docs [= <-]. rewrite Hfind. intros [= <- _].
           rewrite Hdocs. intros H; discriminate H.
    + subst r0; cbn [outcome_of trace_of fst snd]; (split; [|split]).
      * intros r H; discriminate H.
      * intros m a r [H|[H|[]]]; [discriminate H|]. injection H as <- <- _. auto.
      * intros s0 found s1 docs [= <-]. rewrite Hfind. intros H; discriminate H.
  - subst r0; cbn [outcome_of trace_of fst snd]; (split; [|split]).
    + intros r H; discriminate H.
    + intros m a r [H|[]]. discriminate H.
    + intros s0 found s1 docs H; discriminate H.
Qed.

(** X3.  [updatePostReadTime] refuses a read time below 1 before anything
    is asked of the store, with the world left as it was.  Every other
    number, NaN included (NaN is not below 1), is written: once the handle
    is obtained the action makes exactly one store call, an [update] whose
    data is the read time alone; when the handle cannot be obtained it
    makes none. *)
Theorem X3_read_time_guard (id : string) (readTime : number) (w : World) :
  let run := updatePostReadTime id readTime w in
  let args := update_args "posts" id (VObj [("readTime", VNum readTime)]) in
  (num_lt readTime (of_Z 1) = true ->
   run = (Ok (VObj [("success", VBool false);
                    ("error", VStr "Read time must be at least 1 minute")]), w, [])) /\
  (num_lt readTime (of_Z 1) = false ->
   (forall s0, getPayload (store w) = (Ok tt, s0) ->
      call_events (trace_of run) = [Call update args (fst (payload update args s0))]) /\
   (forall e s0, getPayload (store w) = (Throw e, s0) ->
      call_events (trace_of run) = [])) /\
  num_lt NaN (of_Z 1) = false.
Proof.
  intros run args.
  remember (updatePostReadTime id readTime w) as r0 eqn:Hrun. subst run args.
  unfold update_args, updatePostReadTime, updatePostReadTime_try in *. step_in Hrun.
  split; [|split; [|reflexivity]]; intros E; rewrite E in Hrun.
  - exact Hrun.
  - step_in Hrun. split.
    + intros s0 Hinit. rewrite Hinit in Hrun. step_in Hrun.
      destruct (payload update _ s0) as [[d|e1] s1]; step_in Hrun;
        subst r0; reflexivity.
    + intros e s0 Hinit. rewrite Hinit in Hrun. step_in Hrun.
      subst r0. reflexivity.
Qed.

(** X13.  A listing route that gets an answer from the store reports the
    documents and the pagination of that answer, not of the request: status
    200, [data] is the answer's [docs], and [pagination] carries the
    answer's [page], [limit], [totalPages] and [totalDocs]. *)
Theorem X13_pagination_is_the_stores (c : listing) (req : request) (w : World)
    (s0 : Store) (m : method) (args found : jsval) :
  getPayload (store w) = (Ok tt, s0) ->
  In (Call m args (Ok found)) (trace_of (run_GET c req w)) ->
  readable found = true ->
  exists body,
    outcome_of (run_GET c req w) = Ok (JsonResponse 200 body) /\
    field body "success" = VBool true /\
    field body "data" = field found "docs" /\
    field body "pagination"
    = VObj [("page", field found "page"); ("limit", field found "limit");
            ("totalPages", field found "totalPages");
            ("totalDocs", field found "totalDocs")].
Proof.
  intros Hinit Hin Hread.
  assert (Hget : forall k, get_prop found k = Ok (field found k)).
  { intros k. unfold field. destruct found; try discriminate Hread; reflexivity. }
  revert Hin.
  remember (run_GET c req w) as r0 eqn:Hrun.
  destruct c; cbv beta iota delta [run_GET posts_GET posts_GET_try
    products_GET products_GET_try] in Hrun;
    cbv beta iota zeta delta
      [try_catch bind ret lift emit prop getPayloadClient payload_call
       console_error findWithPagination pagination_of NextResponse_json] in Hrun;
    repeat match type of Hrun with
           | context [if ?b then _ else _] => destruct b
           end;
    cbv beta iota zeta in Hrun; cbn [store draft clock app] in Hrun;
    rewrite Hinit in Hrun; cbv beta iota zeta in Hrun;
    cbn [store draft clock app] in Hrun;
    match type of Hrun with
    | context [payload find ?a s0] =>
        destruct (payload find a s0) as [[v|e1] s1']
    end;
    cbv beta iota zeta in Hrun; cbn [store draft clock app] in Hrun.
  all: try (subst r0; cbn [trace_of snd];
            intros [H|[H|[H|[]]]]; discriminate H).
  all: assert (Hv : In (Call m args (Ok found)) (trace_of r0) -> v = found)
         by (rewrite Hrun;
             repeat match goal with
                    | |- context [match get_prop ?x ?k with _ => _ end] =>
                        destruct (get_prop x k)
                    end;
             cbn [trace_of snd app];
             intros H;
             repeat (destruct H as [H|H]; [try discriminate H; injection H; auto|]);
             destruct H).
  all: intros Hin; specialize (Hv Hin); subst v; rewrite !Hget in Hrun;
       cbv beta iota zeta in Hrun; cbn [app] in Hrun; subst r0;
       eexists; (split; [reflexivity|]); repeat split; reflexivity.
Qed.

End HelperResults.

(** ** Revalidation happens on success only *)

Section Revalidation.
Context {api : LocalAPI} {rt : Runtime}.

Lemma revalidations_app (l1 l2 : list event) :
  revalidations (l1 ++ l2) = revalidations l1 ++ revalidations l2.
Proof.
  induction l1 as [|ev l1 IH]; [reflexivity|].
  destruct ev; simpl; rewrite IH; reflexivity.
Qed.

Lemma revalidations_none (l : list event) :
  Forall not_revalidate l -> revalidations l = [].
Proof.
  induction 1 as [|ev l Hev _ IH]; [reflexivity|].
  destruct ev; simpl; try exact IH. destruct Hev.
Qed.

Lemma thrown_in_store_free (l : list event) (e : JsError) :
  Forall not_store_event l -> ~ thrown_in l e.
Proof.
  intros Hl [H | (m & args & H)];
    rewrite Forall_forall in Hl; specialize (Hl _ H); discriminate Hl.
Qed.

Lemma every_revalidatePath (P : event -> Prop) p :
  P (Revalidate p) -> every_event P (revalidatePath p).
Proof. apply every_emit. Qed.

Lemma every_console_error (P : event -> Prop) label e :
  P (ConsoleError label e) -> every_event P (console_error label e).
Proof. apply every_emit. Qed.

(** *** Before the first revalidation, and from it on *)

Lemma silent_bind {A B} (m : M A) (k : A -> M B) :
  every_event not_revalidate m -> faithful m ->
  (forall a, silent_on_throw (k a)) -> silent_on_throw (bind m k).
Proof.
  intros Hq Hf Hk w e. specialize (Hq w). specialize (Hf w e).
  unfold trace_of, outcome_of, bind in *.
  destruct (m w) as [[[a|e1] w1] l1]; simpl in *.
  - specialize (Hk a w1 e). unfold trace_of in Hk.
    destruct (k a w1) as [[r w2] l2]; simpl in *.
    intros H. rewrite revalidations_app, (revalidations_none _ Hq). simpl.
    apply thrown_in_app in H as [H|H]; [|auto].
    specialize (Hf H). discriminate Hf.
  - intros _. apply revalidations_none, Hq.
Qed.

Lemma silent_tail {A} (m : M A) :
  every_event not_store_event m -> silent_on_throw m.
Proof. intros H w e He. destruct (thrown_in_store_free _ e (H w) He). Qed.

Lemma silent_try (body : M jsval) (label fallback : string) :
  silent_on_throw body ->
  silent_on_throw
    (try_catch body
       (fun error => console_error label error ;;; ret (action_failure error fallback))).
Proof.
  intros Hb w e. specialize (Hb w e). unfold trace_of, try_catch in *.
  destruct (body w) as [[[a|e1] w1] l1]; simpl in *; [exact Hb|].
  intros H. rewrite revalidations_app. simpl. rewrite app_nil_r.
  apply Hb. apply thrown_in_app in H as [H|H]; [exact H|].
  apply thrown_in_single in H as [H | (m & args & H)]; discriminate H.
Qed.

Lemma success_bind {A} (m : M A) (k : A -> M jsval) :
  every_event not_revalidate m ->
  (forall a, revalidates_on_success (k a)) -> revalidates_on_success (bind m k).
Proof.
  intros Hq Hk w env. specialize (Hq w).
  unfold trace_of, outcome_of, bind in *.
  destruct (m w) as [[[a|e1] w1] l1]; simpl in *; [|discriminate].
  specialize (Hk a w1 env). unfold trace_of, outcome_of in Hk.
  destruct (k a w1) as [[r w2] l2]; simpl in *.
  intros Ho Hs. rewrite revalidations_app, (revalidations_none _ Hq). simpl. auto.
Qed.

Lemma success_failure (env : jsval) :
  field env "success" <> VBool true -> revalidates_on_success (ret env).
Proof. intros H w env' [= <-] Hs. destruct (H Hs). Qed.

Lemma success_try (body : M jsval) (label fallback : string) :
  revalidates_on_success body ->
  revalidates_on_success
    (try_catch body
       (fun error => console_error label error ;;; ret (action_failure error fallback))).
Proof.
  intros Hb w env. specialize (Hb w env). unfold trace_of, outcome_of, try_catch in *.
  destruct (body w) as [[[a|e1] w1] l1]; simpl in *; [exact Hb|].
  intros [= <-] H. discriminate H.
Qed.

(** The part of an action that follows its store calls: the two
    revalidations, at most one property read, and the envelope. *)
Lemma success_epilogue (envelope : jsval) :
  revalidates_on_success
    (revalidatePath "/examples/local-api" ;;;
     revalidatePath "/examples/local-api/server-actions" ;;;
     ret envelope).
Proof. intros w env _ _. reflexivity. Qed.

Lemma success_epilogue_read (v : jsval) (k : string) (envelope : jsval -> jsval) :
  revalidates_on_success
    (revalidatePath "/examples/local-api" ;;;
     revalidatePath "/examples/local-api/server-actions" ;;;
     x <- prop v k ;; ret (envelope x)).
Proof.
  intros w env. unfold outcome_of, trace_of, bind, revalidatePath, emit, prop, lift, ret.
  simpl. destruct (get_prop v k); simpl; [reflexivity | discriminate].
Qed.

End Revalidation.

Ltac quiet :=
  repeat first
    [ apply every_ret
    | apply every_prop
    | apply every_lift
    | apply every_Date
    | apply every_some_falsy
    | apply every_bind; [|intros ?]
    | apply every_getPayloadClient; intros ?
    | apply every_payload_call; intros ?
    | apply every_revalidatePath
    | apply every_for_of; intros ? ?
    | match goal with
      | |- every_event _ (if ?b then _ else _) => destruct b
      end
    | exact I
    | reflexivity ].

Ltac silent :=
  repeat first
    [ match goal with
      | |- silent_on_throw (if ?b then _ else _) => destruct b
      | |- silent_on_throw (bind (revalidatePath _) _) => apply silent_tail; quiet
      | |- silent_on_throw (ret _) => apply silent_tail; quiet
      end
    | apply silent_bind; [quiet | keep_faith | intros ?] ].

Ltac succeeds :=
  repeat first
    [ match goal with
      | |- revalidates_on_success (if ?b then _ else _) => destruct b
      | |- revalidates_on_success (ret _) => apply success_failure; discriminate
      end
    | apply success_epilogue
    | apply success_epilogue_read
    | apply success_bind; [quiet | intros ?] ].

Section RevalidationTheorem.
Context {api : LocalAPI} {rt : Runtime}.

(** X4.  The server actions revalidate on success only.  When [getPayload]
    or a store call throws, no path has been revalidated; when an action
    returns [success: true], exactly the two example views have been
    revalidated, once each, the list page first. *)
Theorem X4_revalidation_on_success_only (c : action_call) (w : World) :
  let run := run_action c w in
  (forall e, thrown_in (trace_of run) e -> revalidations (trace_of run) = []) /\
  (forall env,
     outcome_of run = Ok env -> field env "success" = VBool true ->
     revalidations (trace_of run)
     = ["/examples/local-api"; "/examples/local-api/server-actions"]).
Proof.
  intros run. subst run. split.
  - intros e. revert w e.
    change (silent_on_throw (run_action c)).
    destruct c; simpl; apply silent_try; open_try; cbv zeta; silent.
  - intros env. revert w env.
    change (revalidates_on_success (run_action c)).
    destruct c; simpl; apply success_try; open_try; cbv zeta; succeeds.
Qed.

End RevalidationTheorem.

(** ** Bulk updates that succeed, and what the toggles write *)

Section BulkSuccess.
Context {api : LocalAPI} {rt : Runtime}.

Lemma for_of_commit collection updates (ids : list string)
    (s s' : Store) (docs acc : list jsval) d c :
  commit collection updates ids s = Some (s', docs) ->
  for_of ids (one_write collection updates) acc (mkWorld s d c)
  = (Ok (acc ++ docs), mkWorld s' d c, writes collection updates ids docs).
Proof.
  revert s docs acc. induction ids as [|x ids IH]; intros s docs acc Hc.
  - simpl in Hc. injection Hc as -> <-. simpl. unfold ret.
    rewrite app_nil_r. reflexivity.
  - simpl in Hc.
    destruct (payload update (update_args collection x updates) s)
      as [[dx|ex] s1] eqn:Ex; [|discriminate].
    destruct (commit collection updates ids s1) as [[s2 ds]|] eqn:E; [|discriminate].
    injection Hc as -> <-.
    cbn [for_of]. unfold bind at 1. unfold one_write at 1.
    unfold bind at 1. unfold payload_call at 1. cbn [store draft clock].
    rewrite Ex. cbn [ret app].
    rewrite (IH s1 ds (acc ++ [dx]) E). rewrite <- app_assoc. reflexivity.
Qed.

(** X5.  When the handle is obtained and every write succeeds, a bulk
    update has issued one write per id in list order, then revalidated the
    two views; it returns the documents the writes returned, in the order
    of the ids, and counts them in its message.  For an empty list this is
    a success that writes nothing and still revalidates. *)
Theorem X5_bulk_update_success (b : bulk) (ids : list string) (updates : jsval)
    (w : World) (s0 s' : Store) (docs : list jsval) :
  getPayload (store w) = (Ok tt, s0) ->
  commit (bulk_collection b) updates ids s0 = Some (s', docs) ->
  run_bulk b ids updates w
  = (Ok (VObj [("success", VBool true);
               ("message",
                VStr (number_to_string (of_nat (List.length ids))
                      ++ " " ++ bulk_noun b ++ " updated successfully"));
               ("data", VArr docs)]),
     mkWorld s' (draft w) (clock w),
     Init (Ok tt)
     :: writes (bulk_collection b) updates ids docs
     ++ [Revalidate "/examples/local-api";
         Revalidate "/examples/local-api/server-actions"]) /\
  List.length docs = List.length ids.
Proof.
  intros Hinit Hcommit.
  pose proof (commit_length _ _ _ _ _ _ Hcommit) as Hlen.
  split; [|exact Hlen].
  assert (Hloop := for_of_commit (bulk_collection b) updates ids s0 s' docs []
                     (draft w) (clock w) Hcommit).
  destruct b; unfold run_bulk, bulkUpdatePosts, bulkUpdatePosts_try,
    bulkUpdateProducts, bulkUpdateProducts_try, try_catch;
    unfold bind at 1; unfold getPayloadClient at 1; rewrite Hinit;
    cbn [store draft clock];
    unfold bind at 1;
    simpl bulk_collection in *;
    unfold one_write, update_args in Hloop |- *;
    rewrite Hloop;
    unfold revalidatePath, emit, ret, bind; cbn [app bulk_noun];
    rewrite Hlen; reflexivity.
Qed.

End BulkSuccess.

Section ToggleWrites.
Context {api : LocalAPI} {rt : Runtime}.

(** X6.  A toggle never writes without having read: its calls on the store
    are none at all, a single [findByID], or a [findByID] that returned a
    document followed by one [update] of the same id whose data sets the
    toggled field to the flipped value of what was read. *)
Theorem X6_toggle_reads_before_it_writes (t : toggle) (id : string) (w : World) :
  let calls := call_events (trace_of (run_toggle t id w)) in
  calls = [] \/
  (exists r, calls = [Call findByID (by_id (toggle_collection t) id) r]) \/
  (exists doc data r,
     calls = [Call findByID (by_id (toggle_collection t) id) (Ok doc);
              Call update (update_args (toggle_collection t) id (VObj data)) r] /\
     assoc (toggle_field t) data = Some (flipped t (field doc (toggle_field t)))).
Proof.
  intros calls. subst calls.
  remember (run_toggle t id w) as run eqn:Hrun.
  unfold update_args, by_id.
  destruct t;
    cbv beta iota delta [run_toggle
                         togglePostStatus togglePostStatus_try
                         togglePostFeatured togglePostFeatured_try
                         toggleProductStock toggleProductStock_try
                         toggleProductFeatured toggleProductFeatured_try
                         toggle_collection toggle_field flipped] in *;
    step_in Hrun;
    (destruct (getPayload (store w)) as [[[]|e0] s0]; step_in Hrun;
     [ | subst run; left; reflexivity ]);
    (match type of Hrun with
     | context [payload findByID ?a ?st] =>
         destruct (payload findByID a st) as [[doc|e1] s1]; step_in Hrun
     end;
     [ | subst run; right; left; eexists; reflexivity ]);
    (match type of Hrun with
     | context [get_prop ?d ?k] =>
         destruct (get_prop d k) as [v|e2] eqn:Hv; step_in Hrun
     end;
     [ | subst run; right; left; eexists; reflexivity ]).
  all: try (pose proof (readable_get _ _ "publishedDate" _ Hv) as Hdate;
            destruct (is_str v "published") eqn:Es;
            cbn [String.eqb Ascii.eqb Bool.eqb] in Hrun;
            try (rewrite Hdate in Hrun;
                 match type of Hrun with
                 | context [negb (truthy ?x)] => destruct (negb (truthy x))
                 end);
            step_in Hrun).
  all: match type of Hrun with
       | context [payload update ?a ?st] =>
           destruct (payload update a st) as [[upd|e3] s2]
       end;
       step_in Hrun;
       try match type of Hrun with
           | context [get_prop ?u ?k] => destruct (get_prop u k); step_in Hrun
           end;
       subst run; right; right; eexists _, _, _;
       (split; [reflexivity|]);
       rewrite (get_field _ _ _ Hv); cbn [assoc String.eqb Ascii.eqb Bool.eqb];
       rewrite ?Es; reflexivity.
Qed.

(** X7.  The data [togglePostStatus] writes for a post it could read: a
    published post becomes a draft and nothing else changes; any other post
    becomes published, and is stamped with the current time as
    [publishedDate] only when it has none. *)
Theorem X7_publish_stamps_the_date_once (id : string) (w : World)
    (s0 s1 : Store) (post : jsval) :
  getPayload (store w) = (Ok tt, s0) ->
  payload findByID (by_id "posts" id) s0 = (Ok post, s1) ->
  readable post = true ->
  exists r,
    call_events (trace_of (togglePostStatus id w))
    = [Call findByID (by_id "posts" id) (Ok post);
       Call update
         (update_args "posts" id (VObj (status_update post (clock w)))) r].
Proof.
  intros Hinit Hfind Hread.
  assert (Hget : forall k, get_prop post k = Ok (field post k)).
  { intros k. unfold field. destruct post; try discriminate Hread; reflexivity. }
  remember (togglePostStatus id w) as run eqn:Hrun.
  unfold update_args, by_id, status_update, togglePostStatus,
    togglePostStatus_try in *.
  step_in Hrun. rewrite Hinit in Hrun. step_in Hrun.
  rewrite Hfind in Hrun. step_in Hrun. rewrite Hget in Hrun. step_in Hrun.
  destruct (is_str (field post "status") "published");
    cbn [String.eqb Ascii.eqb Bool.eqb] in Hrun;
    try (rewrite Hget in Hrun; destruct (truthy (field post "publishedDate")));
    cbn [negb] in Hrun; step_in Hrun.
  all: match type of Hrun with
       | context [payload update ?a ?st] =>
           destruct (payload update a st) as [[upd|e3] s2]
       end;
       step_in Hrun;
       try match type of Hrun with
           | context [get_prop ?u ?k] => destruct (get_prop u k); step_in Hrun
           end;
       subst run; eexists; reflexivity.
Qed.

End ToggleWrites.

(** ** Preview links *)

Section QueryStrings.

Lemma plus_to_space_app (a b : string) :
  plus_to_space (a ++ b) = (plus_to_space a ++ plus_to_space b)%string.
Proof. induction a as [|c a IH]; simpl; [reflexivity | now rewrite IH]. Qed.

Lemma decode_encoded_byte (c : ascii) (rest : string) :
  percent_decode (plus_to_space (urlencode_byte c) ++ rest)%string
  = String c (percent_decode rest).
Proof.
  destruct c as [[] [] [] [] [] [] [] []]; reflexivity.
Qed.

Lemma decode_encode (s : string) :
  percent_decode (plus_to_space (urlencode s)) = s.
Proof.
  induction s as [|c s IH]; [reflexivity|].
  simpl urlencode. rewrite plus_to_space_app, decode_encoded_byte, IH.
  reflexivity.
Qed.

Lemma all_bytes_app (P : ascii -> bool) (a b : string) :
  all_bytes P (a ++ b)%string = all_bytes P a && all_bytes P b.
Proof.
  induction a as [|c a IH]; simpl; [reflexivity|].
  rewrite IH, andb_assoc. reflexivity.
Qed.

Lemma urlencode_byte_bytes (c : ascii) :
  all_bytes is_encoded_byte (urlencode_byte c) = true.
Proof. destruct c as [[] [] [] [] [] [] [] []]; reflexivity. Qed.

Lemma urlencode_bytes (s : string) :
  all_bytes is_encoded_byte (urlencode s) = true.
Proof.
  induction s as [|c s IH]; [reflexivity|].
  simpl. rewrite all_bytes_app, urlencode_byte_bytes, IH. reflexivity.
Qed.

Lemma all_bytes_impl (P Q : ascii -> bool) (s : string) :
  (forall c, P c = true -> Q c = true) ->
  all_bytes P s = true -> all_bytes Q s = true.
Proof.
  intros HPQ. induction s as [|c s IH]; [reflexivity|]. simpl.
  intros H. apply andb_prop in H as [Hc Hs]. rewrite (HPQ _ Hc), (IH Hs).
  reflexivity.
Qed.

Lemma encoded_byte_is_not (sep : ascii) (c : ascii) :
  sep = "&"%char \/ sep = "="%char ->
  is_encoded_byte c = true -> Ascii.eqb c sep = false.
Proof.
  intros [-> | ->]; destruct c as [[] [] [] [] [] [] [] []];
    intros H; try reflexivity; discriminate H.
Qed.

Lemma split_on_none (sep : ascii) (a : string) :
  all_bytes (fun c => negb (Ascii.eqb c sep)) a = true ->
  split_on sep a = [a].
Proof.
  induction a as [|c a IH]; [reflexivity|]. simpl.
  intros H. apply andb_prop in H as [Hc Ha]. apply negb_true_iff in Hc.
  rewrite Hc, (IH Ha). reflexivity.
Qed.

Lemma split_on_app (sep : ascii) (a b : string) :
  all_bytes (fun c => negb (Ascii.eqb c sep)) a = true ->
  split_on sep (a ++ String sep b) = a :: split_on sep b.
Proof.
  induction a as [|c a IH]; simpl.
  - intros _. rewrite Ascii.eqb_refl. reflexivity.
  - intros H. apply andb_prop in H as [Hc Ha]. apply negb_true_iff in Hc.
    rewrite Hc, (IH Ha). reflexivity.
Qed.

Lemma split_pair_app (a b : string) :
  all_bytes (fun c => negb (Ascii.eqb c "=")) a = true ->
  split_pair (a ++ String "=" b) = (a, b).
Proof.
  induction a as [|c a IH]; simpl; [reflexivity|].
  intros H. apply andb_prop in H as [Hc Ha]. apply negb_true_iff in Hc.
  rewrite Hc, (IH Ha). reflexivity.
Qed.

Lemma urlencode_has_no (sep : ascii) (s : string) :
  sep = "&"%char \/ sep = "="%char ->
  all_bytes (fun c => negb (Ascii.eqb c sep)) (urlencode s) = true.
Proof.
  intros Hsep. apply (all_bytes_impl is_encoded_byte); [|apply urlencode_bytes].
  intros c Hc. rewrite (encoded_byte_is_not sep c Hsep Hc). reflexivity.
Qed.

(** One serialized pair. *)
Lemma pair_has_no_ampersand (k v : string) :
  all_bytes (fun c => negb (Ascii.eqb c "&"))
            (urlencode k ++ "=" ++ urlencode v) = true.
Proof.
  rewrite all_bytes_app, (urlencode_has_no "&" k) by (left; reflexivity).
  simpl. apply urlencode_has_no. left; reflexivity.
Qed.

Lemma pair_not_empty (k v : string) :
  ((urlencode k ++ "=" ++ urlencode v) =? EmptyString) = false.
Proof. destruct (urlencode k); reflexivity. Qed.

Lemma parse_pair (k v : string) :
  (let '(n, x) := split_pair (urlencode k ++ "=" ++ urlencode v) in
   (percent_decode (plus_to_space n), percent_decode (plus_to_space x)))
  = (k, v).
Proof.
  change (urlencode k ++ "=" ++ urlencode v)%string
    with (urlencode k ++ String "=" (urlencode v))%string.
  rewrite split_pair_app by (apply urlencode_has_no; right; reflexivity).
  rewrite !decode_encode. reflexivity.
Qed.

(** Parsing a serialized parameter list gives the list back. *)
Lemma parse_toString (params : list (string * string)) :
  URLSearchParams_parse (URLSearchParams_toString params) = params.
Proof.
  unfold URLSearchParams_parse, URLSearchParams_toString.
  induction params as [|[k v] rest IH]; [reflexivity|].
  destruct rest as [|[k' v'] rest].
  - cbn [map String.concat fst snd].
    rewrite split_on_none by apply pair_has_no_ampersand.
    cbn [filter]. rewrite pair_not_empty. cbn [negb map].
    rewrite parse_pair. reflexivity.
  - cbn [map String.concat fst snd] in *.
    change ("&" ++ ?x)%string with (String "&" x).
    rewrite split_on_app by apply pair_has_no_ampersand.
    cbn [filter]. rewrite pair_not_empty. cbn [negb map].
    rewrite parse_pair. f_equal. exact IH.
Qed.

Lemma toString_bytes (params : list (string * string)) :
  all_bytes is_query_byte (URLSearchParams_toString params) = true.
Proof.
  assert (Henc : forall s, all_bytes is_query_byte (urlencode s) = true).
  { intros s. apply (all_bytes_impl is_encoded_byte); [|apply urlencode_bytes].
    intros c Hc. unfold is_query_byte. unfold is_encoded_byte in Hc.
    rewrite Hc. reflexivity. }
  assert (Hpair : forall k v,
             all_bytes is_query_byte (urlencode k ++ "=" ++ urlencode v) = true).
  { intros k v. rewrite all_bytes_app, Henc. simpl. apply Henc. }
  unfold URLSearchParams_toString.
  induction params as [|[k v] rest IH]; [reflexivity|].
  destruct rest as [|p rest]; cbn [map String.concat fst snd] in *.
  - apply Hpair.
  - rewrite all_bytes_app, Hpair. simpl. exact IH.
Qed.

Lemma before_no_hash (s : string) :
  all_bytes is_query_byte s = true -> before "#" s = s.
Proof.
  induction s as [|c s IH]; [reflexivity|]. simpl.
  intros H. apply andb_prop in H as [Hc Hs].
  assert (E : Ascii.eqb c "#" = false).
  { destruct c as [[] [] [] [] [] [] [] []]; try reflexivity; discriminate Hc. }
  rewrite E, (IH Hs). reflexivity.
Qed.

(** The query of a preview link, as the preview route reads it. *)
Lemma preview_link_query (collection slug : string) :
  url_searchParams (generatePreviewPath collection slug)
  = [("slug", slug); ("collection", collection);
     ("path", ((if collection =? "posts" then "/posts" else EmptyString)
               ++ "/" ++ slug)%string)].
Proof.
  unfold generatePreviewPath, url_searchParams. cbn [fold_left app].
  cbn [after Ascii.eqb Bool.eqb String.append].
  rewrite before_no_hash by apply toString_bytes.
  rewrite parse_toString. unfold collectionPrefixMap. cbn [assoc].
  rewrite String.eqb_sym. destruct (collection =? "posts"); reflexivity.
Qed.

(** X8.  A preview link is [/next/preview?] followed by a query string
    that holds, in this order, the slug, the collection and the path
    [prefix/slug] (the prefix is [/posts] for posts and empty for any other
    collection slug), whatever bytes the slug is made of: parsing the query
    string gives the three values back unchanged, and the query string
    itself contains only letters, digits and [*-._%+=&]. *)
Theorem X8_preview_link_round_trip (collection slug : string) :
  ~ In collection inherited_names ->
  exists qs,
    generatePreviewPath collection slug = ("/next/preview?" ++ qs)%string /\
    URLSearchParams_parse qs
    = [("slug", slug); ("collection", collection);
       ("path", ((if collection =? "posts" then "/posts" else EmptyString)
                 ++ "/" ++ slug)%string)] /\
    url_searchParams (generatePreviewPath collection slug)
    = URLSearchParams_parse qs /\
    all_bytes is_query_byte qs = true.
Proof.
  intros _. unfold generatePreviewPath. cbn [fold_left app].
  eexists. split; [reflexivity|]. split; [|split].
  - rewrite parse_toString. unfold collectionPrefixMap. cbn [assoc].
    rewrite String.eqb_sym. destruct (collection =? "posts"); reflexivity.
  - unfold url_searchParams. cbn [after Ascii.eqb Bool.eqb].
    rewrite before_no_hash by apply toString_bytes. reflexivity.
  - apply toString_bytes.
Qed.

End QueryStrings.

(** ** From a preview link to the post page *)

Section LinkToPage.
Context {api : LocalAPI} {rt : Runtime}.

(** X9.  Following the preview link of a post with a valid token: the
    route never answers that the path is missing; it asks the store for
    exactly that post (when the slug is not empty) and then either answers
    404 because the store finds no such document, leaving draft mode as it
    was, or enables draft mode and redirects to [/posts/slug]. *)
Theorem X9_preview_link_is_followed (slug : string) (jar : list (string * string))
    (body : result jsval) (w : World) (s0 : Store) (token : string) (user : jsval) :
  getPayload (store w) = (Ok tt, s0) ->
  assoc payloadToken jar = Some token -> token <> EmptyString ->
  jwt_verify token payload_secret = Ok user -> truthy user = true ->
  let req := mkRequest (url_searchParams (generatePreviewPath "posts" slug))
                       jar body in
  let run := preview_GET req w in
  (forall m a r, In (Call m a r) (trace_of run) ->
     slug <> EmptyString /\ m = find /\
     a = preview_find_args (Some "posts") (Some slug)) /\
  ((outcome_of run = Ok (Redirect ("/posts/" ++ slug)) /\
    draft (world_of run) = true) \/
   (outcome_of run = Ok (TextResponse 404 "Document not found") /\
    draft (world_of run) = draft w)).
Proof.
  intros Hinit Hjar Htoken Hverify Huser req run.
  remember (preview_GET req w) as r0 eqn:Hrun. subst run req.
  rewrite preview_link_query in Hrun.
  unfold preview_GET, preview_find_args, redirect, forbidden in *.
  cbn [query cookies searchParams_get assoc String.eqb Ascii.eqb Bool.eqb] in Hrun.
  rewrite Hjar in Hrun.
  assert (Hgt : given (Some token) = true).
  { unfold given; simpl. destruct (String.eqb_spec token EmptyString);
      [contradiction|reflexivity]. }
  rewrite Hgt in Hrun.
  change (given (Some ("/posts" ++ "/" ++ slug)%string)) with true in Hrun.
  cbn [negb param_str] in Hrun.
  cbv beta iota delta
    [try_catch bind ret lift prop getPayloadClient payload_call
     logger_error draftMode_set emit] in Hrun.
  rewrite Hinit, Hverify in Hrun.
  cbv beta iota zeta in Hrun. cbn [store draft clock app] in Hrun.
  rewrite Huser in Hrun. cbn [negb] in Hrun.
  change (given (Some "posts")) with true in Hrun. cbn [andb] in Hrun.
  unfold given in Hrun. cbn [param_val truthy] in Hrun.
  destruct (String.eqb_spec slug EmptyString) as [Hs|Hs]; cbn [negb] in Hrun;
    cbv beta iota zeta in Hrun; cbn [store draft clock app] in Hrun.
  - subst r0. split; [|left; split; reflexivity].
    intros m a r [H|[H|[]]]; discriminate H.
  - destruct (payload find _ s0) as [[found|e] s1];
      [destruct (get_prop found "docs") as [docs|e];
       [destruct (get_prop docs "length") as [len|e];
        [destruct (truthy len)|]|]|];
      subst r0; cbn [trace_of outcome_of world_of fst snd draft];
      (split;
       [ intros m a r H; simpl in H;
         repeat (destruct H as [H|H]; try discriminate H);
         try contradiction;
         injection H as <- <- _; auto
       | first [ left; split; reflexivity | right; split; reflexivity ] ]).
Qed.

Lemma first_of_array (docs : list jsval) :
  get_first (VArr docs) = Ok (match docs with d :: _ => d | [] => VUndefined end).
Proof. reflexivity. Qed.

(** The one question the post page asks. *)
Lemma post_page_asks (slug : string) (w : World) m a r :
  In (Call m a r) (trace_of (PostPage slug w)) ->
  m = find /\
  a = VObj [("collection", VStr "posts");
            ("where", cond "slug" "equals" (VStr slug));
            ("draft", VBool (draft w));
            ("limit", VNum (of_Z 1))].
Proof.
  remember (PostPage slug w) as r0 eqn:Hrun.
  unfold PostPage in Hrun.
  cbv beta iota delta
    [bind ret lift prop getPayloadClient payload_call draftMode_isEnabled] in Hrun.
  cbn [store draft clock app] in Hrun.
  destruct (getPayload (store w)) as [[[]|e0] s0];
    cbv beta iota zeta in Hrun; cbn [store draft clock app] in Hrun;
    [|subst r0; intros [H|[]]; discriminate H].
  destruct (payload find _ s0) as [[found|e1] s1];
    cbv beta iota zeta in Hrun; cbn [store draft clock app] in Hrun;
    [destruct (get_prop found "docs") as [docs|e2]; cbv beta iota zeta in Hrun;
     [destruct (get_first docs) as [post|e3]; cbv beta iota zeta in Hrun;
      [destruct (negb (truthy post))|]|]|];
    subst r0; intros [H|[H|[]]]; try discriminate H;
    injection H as <- <- _; auto.
Qed.

(** X10.  The post page asks the store for the post with the given slug,
    with [draft] set to the draft-mode flag as it stands when the page is
    rendered; it calls [notFound()] exactly when the store's answer has no
    first document, and otherwise hands that document, with the flag, to the
    markup. *)
Theorem X10_post_page_follows_draft_mode (slug : string) (w : World) :
  let run := PostPage slug w in
  let args := VObj [("collection", VStr "posts");
                    ("where", cond "slug" "equals" (VStr slug));
                    ("draft", VBool (draft w));
                    ("limit", VNum (of_Z 1))] in
  (forall m a r, In (Call m a r) (trace_of run) -> m = find /\ a = args) /\
  (forall s0 found s1 docs,
     getPayload (store w) = (Ok tt, s0) ->
     payload find args s0 = (Ok found, s1) ->
     get_prop found "docs" = Ok (VArr docs) ->
     outcome_of run
     = Ok (match docs with
           | d :: _ => if truthy d then PostView (draft w) d else NotFoundPage
           | [] => NotFoundPage
           end)).
Proof.
  intros run args. subst run args. split; [intros m a r; apply post_page_asks|].
  intros s0 found s1 docs Hinit Hfind Hdocs.
  unfold PostPage.
  cbv beta iota delta
    [bind ret lift prop getPayloadClient payload_call draftMode_isEnabled].
  cbn [store draft clock app]. rewrite Hinit.
  cbv beta iota zeta. cbn [store draft clock app]. rewrite Hfind.
  cbv beta iota zeta. rewrite Hdocs. cbv beta iota zeta.
  rewrite first_of_array.
  destruct docs as [|d ?]; cbn [truthy negb]; [reflexivity|].
  destruct (truthy d); reflexivity.
Qed.

Lemma preview_redirect_enables (req : request) (w : World) (p : string) :
  outcome_of (preview_GET req w) = Ok (Redirect p) ->
  draft (world_of (preview_GET req w)) = true.
Proof.
  remember (preview_GET req w) as r0 eqn:Hrun.
  unfold preview_GET, redirect, forbidden in Hrun.
  cbv beta iota delta
    [try_catch bind ret lift prop getPayloadClient payload_call
     logger_error draftMode_set emit] in Hrun.
  destruct (getPayload (store w)) as [[[]|e0] s0];
    cbv beta iota zeta in Hrun; cbn [store draft clock app] in Hrun;
    [|subst r0; intros H; discriminate H].
  destruct (negb (given (searchParams_get (query req) "path")));
    [subst r0; intros H; discriminate H|].
  destruct (negb (given (assoc payloadToken (cookies req))));
    [subst r0; intros H; discriminate H|].
  destruct (jwt_verify _ payload_secret) as [user|e];
    [|subst r0; intros H; discriminate H].
  cbv beta iota zeta in Hrun. cbn [store draft clock app] in Hrun.
  destruct (negb (truthy user)); [subst r0; intros H; discriminate H|].
  destruct (given (searchParams_get (query req) "collection")
            && given (searchParams_get (query req) "slug"));
    [|subst r0; intros _; reflexivity].
  cbv beta iota zeta in Hrun. cbn [store draft clock app] in Hrun.
  destruct (payload find _ s0) as [[found|e] s1];
    [|subst r0; intros _; reflexivity].
  destruct (get_prop found "docs") as [docs|e];
    [|subst r0; intros _; reflexivity].
  destruct (get_prop docs "length") as [len|e];
    [|subst r0; intros _; reflexivity].
  destruct (truthy len); subst r0; intros H; [reflexivity | discriminate H].
Qed.

(** X11.  Draft mode carries over from the preview routes to the post
    page: after the exit route the page asks for published content
    ([draft: false]), whatever the flag was before, and after a preview
    request that ended in a redirect it asks for drafts ([draft: true]). *)
Theorem X11_draft_mode_carries_over (req : request) (w : World) (slug : string) :
  (forall m a r,
     In (Call m a r) (trace_of (PostPage slug (world_of (exit_draft_GET req w)))) ->
     field a "draft" = VBool false) /\
  (forall p m a r,
     outcome_of (preview_GET req w) = Ok (Redirect p) ->
     In (Call m a r) (trace_of (PostPage slug (world_of (preview_GET req w)))) ->
     field a "draft" = VBool true).
Proof.
  split.
  - intros m a r Hin.
    destruct (post_page_asks _ _ _ _ _ Hin) as [_ ->]. reflexivity.
  - intros p m a r Hout Hin.
    destruct (post_page_asks _ _ _ _ _ Hin) as [_ ->].
    cbn [field get_prop assoc String.eqb Ascii.eqb Bool.eqb].
    rewrite (preview_redirect_enables _ _ _ Hout). reflexivity.
Qed.

End LinkToPage.

(** ** The create forms of the two demo components *)

Section CreateFormProperties.
Context {api : LocalAPI} {rt : Runtime}.

Lemma missing_text_is_falsy (c : listing) (form : list (string * string))
    (f : string) :
  In f (form_required_text c) ->
  given (formData_get form f) = false ->
  some_required_falsy (required_of (form_action c))
    (match c with
     | Posts => post_form_data form
     | Products => product_form_data form
     end) = true.
Proof.
  intros Hin Hgiven.
  destruct c; cbn [form_required_text form_action required_of] in *;
    unfold posts_required, products_required, some_required_falsy in *;
    apply existsb_exists; exists f; (split;
    [ cbn [In] in *; intuition auto
    | cbn [In] in Hin;
      repeat (destruct Hin as [<-|Hin]; [ exact (f_equal negb Hgiven) | ]);
      contradiction ]).
Qed.

(** X14.  A form submitted with one of the required text inputs absent or
    empty never reaches the store: the handler shows the action's validation
    failure, leaves the form as it is, and records no effect at all. *)
Theorem X14_incomplete_form_stays_local (c : listing)
    (form : list (string * string)) (ui : UI) (w : World) (f : string) :
  In f (form_required_text c) ->
  given (formData_get form f) = false ->
  run_form c form ui w
  = (Ok (mkUI false
           (VObj [("success", VBool false);
                  ("error", VStr (missing_message (form_action c)))])
           (form_resets ui)),
     w, []).
Proof.
  intros Hin Hgiven.
  pose proof (missing_text_is_falsy c form f Hin Hgiven) as Hfalsy.
  destruct c; cbn [run_form form_action missing_message required_of] in *;
    unfold handleCreatePost, handleCreateProduct, createPost, createPost_try,
      createProduct, createProduct_try;
    cbn [isCreating actionResult form_resets];
    unfold bind at 1; unfold try_catch; unfold bind at 1;
    rewrite some_falsy_run by reflexivity; rewrite Hfalsy; reflexivity.
Qed.


End CreateFormProperties.

(** ** What the endpoints never ask of the store *)

Section Bounds.
Context {api : LocalAPI} {rt : Runtime}.



End Bounds.

(** ** Concrete runs on the in-memory store *)

Section FurtherRuns.
#[local] Existing Instance Mem.api.
#[local] Existing Instance Mem.rt.

(** Looking up an id that does not exist: [findById] throws the store's
    error. *)
Lemma X1_witness :
  outcome_of (run_helper (FindById "posts" (VStr "ghost")) Mem.world0)
  = Throw Mem.not_found.
Proof.
  destruct (X1_helpers_do_not_catch (FindById "posts" (VStr "ghost")) Mem.world0)
    as [(e & Ht & _) | (args & r & Ht & _ & Hthrow)].
  - discriminate Ht.
  - apply Hthrow. injection Ht as _ <-. reflexivity.
Defined.

(** A slug that no post has gives [null]; the slug of a post gives it. *)
Lemma X2_witness :
  outcome_of (findBySlug "posts" "ghost" Mem.world0) = Ok VNull /\
  outcome_of (findBySlug "posts" "hello" Mem.world0)
  = Ok (VObj (snd (Mem.post "hello" "draft" false))).
Proof.
  split.
  - destruct (X2_findBySlug_first_or_null "posts" "ghost" Mem.world0)
      as (_ & _ & H).
    exact (H Mem.sample _ Mem.sample [] eq_refl eq_refl eq_refl).
  - destruct (X2_findBySlug_first_or_null "posts" "hello" Mem.world0)
      as (_ & _ & H).
    exact (H Mem.sample _ Mem.sample [VObj (snd (Mem.post "hello" "draft" false))]
             eq_refl eq_refl eq_refl).
Defined.

(** A read time of 0 is refused; NaN is written, and is what the store then
    holds. *)
Lemma X3_witness :
  updatePostReadTime "hello" (of_Z 0) Mem.world0
  = (Ok (VObj [("success", VBool false);
               ("error", VStr "Read time must be at least 1 minute")]),
     Mem.world0, []) /\
  (exists doc,
     call_events (trace_of (updatePostReadTime "hello" NaN Mem.world0))
     = [Call update (update_args "posts" "hello" (VObj [("readTime", VNum NaN)]))
          (Ok doc)]) /\
  option_map (assoc "readTime")
    (Mem.lookup "posts" "hello"
       (store (world_of (updatePostReadTime "hello" NaN Mem.world0))))
  = Some (Some (VNum NaN)).
Proof.
  split; [|split].
  - destruct (X3_read_time_guard "hello" (of_Z 0) Mem.world0) as (H & _).
    apply H. reflexivity.
  - destruct (X3_read_time_guard "hello" NaN Mem.world0) as (_ & H & _).
    destruct (H eq_refl) as (Hcall & _).
    eexists. rewrite (Hcall Mem.sample eq_refl). reflexivity.
  - reflexivity.
Defined.

(** Deleting a post that does not exist revalidates nothing; deleting one
    that exists revalidates the two views. *)
Lemma X4_witness :
  revalidations (trace_of (run_action (DeletePost "ghost") Mem.world0)) = [] /\
  revalidations (trace_of (run_action (DeletePost "hello") Mem.world0))
  = ["/examples/local-api"; "/examples/local-api/server-actions"].
Proof.
  split.
  - destruct (X4_revalidation_on_success_only (DeletePost "ghost") Mem.world0)
      as (H & _).
    apply (H Mem.not_found). right.
    exists delete, (VObj [("collection", VStr "posts"); ("id", VStr "ghost")]).
    right; left; reflexivity.
  - destruct (X4_revalidation_on_success_only (DeletePost "hello") Mem.world0)
      as (_ & H).
    apply (H (VObj [("success", VBool true);
                    ("message", VStr "Post deleted successfully")]));
      reflexivity.
Defined.

(** Two existing posts are both written. *)
Lemma X5_witness :
  let ids := ["hello"; "world"] in
  let updates := VObj [("featured", VBool true)] in
  exists env w' l docs,
    run_bulk BulkPosts ids updates Mem.world0 = (Ok env, w', l) /\
    field env "message" = VStr "2 posts updated successfully" /\
    field env "data" = VArr docs /\ List.length docs = 2%nat.
Proof.
  intros ids updates.
  edestruct (X5_bulk_update_success BulkPosts ids updates Mem.world0)
    as [Hrun Hlen]; [reflexivity | reflexivity |].
  eexists _, _, _, _. split; [exact Hrun|]. repeat split; exact Hlen.
Defined.

(** Publishing the draft [hello], which has no date yet, stamps it. *)
Lemma X7_witness :
  exists r,
    call_events (trace_of (togglePostStatus "hello" Mem.world0))
    = [Call findByID (by_id "posts" "hello")
         (Ok (VObj (snd (Mem.post "hello" "draft" false))));
       Call update
         (update_args "posts" "hello"
            (VObj [("status", VStr "published");
                   ("publishedDate", VStr "2025-01-01T00:00:00.000Z")])) r].
Proof.
  apply (X7_publish_stamps_the_date_once "hello" Mem.world0 Mem.sample Mem.sample);
    reflexivity.
Defined.

(** The second page of the posts: the pagination is the store's answer. *)
Lemma X13_witness :
  exists body,
    outcome_of (run_GET Posts (Mem.get_request [("page", "2")]) Mem.world0)
    = Ok (JsonResponse 200 body) /\
    field (field body "pagination") "page" = VNum (of_Z 2) /\
    field (field body "pagination") "totalPages" = VNum (of_Z 1).
Proof.
  edestruct (X13_pagination_is_the_stores Posts
               (Mem.get_request [("page", "2")]) Mem.world0 Mem.sample)
    as (body & Hout & _ & _ & Hpag);
    [ reflexivity | right; left; reflexivity | reflexivity | ].
  exists body. split; [exact Hout|]. rewrite Hpag. split; reflexivity.
Defined.

(** The preview link of a post whose slug has a space, a slash and an
    ampersand in it. *)
Lemma X8_witness :
  generatePreviewPath "posts" "a b/c&d"
  = "/next/preview?slug=a+b%2Fc%26d&collection=posts&path=%2Fposts%2Fa+b%2Fc%26d" /\
  url_searchParams (generatePreviewPath "posts" "a b/c&d")
  = [("slug", "a b/c&d"); ("collection", "posts"); ("path", "/posts/a b/c&d")].
Proof.
  destruct (X8_preview_link_round_trip "posts" "a b/c&d")
    as (qs & Hlink & Hparse & Hurl & _).
  - cbn [In inherited_names]. intros H.
    repeat (destruct H as [H|H]; [discriminate H|]). exact H.
  - split; [reflexivity|]. rewrite Hurl, Hparse. reflexivity.
Defined.

(** Following the preview link of the post [hello] with a valid token. *)
Lemma X9_witness :
  let req := mkRequest (url_searchParams (generatePreviewPath "posts" "hello"))
               [(payloadToken, "signed:s3cret")] (Ok VUndefined) in
  outcome_of (preview_GET req Mem.world0) = Ok (Redirect "/posts/hello") /\
  draft (world_of (preview_GET req Mem.world0)) = true.
Proof.
  intros req.
  destruct (X9_preview_link_is_followed "hello" [(payloadToken, "signed:s3cret")]
              (Ok VUndefined) Mem.world0 Mem.sample "signed:s3cret"
              (VObj [("id", VStr "editor")]))
    as (_ & [H | [H _]]);
    [ reflexivity | reflexivity | discriminate | reflexivity | reflexivity
    | exact H | discriminate H ].
Defined.

(** The page of the post [hello], and of a slug that no post has. *)
Lemma X10_witness :
  outcome_of (PostPage "hello" Mem.world0)
  = Ok (PostView false (VObj (snd (Mem.post "hello" "draft" false)))) /\
  outcome_of (PostPage "ghost" Mem.world0) = Ok NotFoundPage.
Proof.
  split.
  - destruct (X10_post_page_follows_draft_mode "hello" Mem.world0) as (_ & H).
    exact (H Mem.sample _ Mem.sample [VObj (snd (Mem.post "hello" "draft" false))]
             eq_refl eq_refl eq_refl).
  - destruct (X10_post_page_follows_draft_mode "ghost" Mem.world0) as (_ & H).
    exact (H Mem.sample _ Mem.sample [] eq_refl eq_refl eq_refl).
Defined.

(** After the preview link of [hello] has been followed, its page asks for
    the draft. *)
Lemma X11_witness :
  let req := mkRequest (url_searchParams (generatePreviewPath "posts" "hello"))
               [(payloadToken, "signed:s3cret")] (Ok VUndefined) in
  exists a r,
    In (Call find a r)
       (trace_of (PostPage "hello" (world_of (preview_GET req Mem.world0)))) /\
    field a "draft" = VBool true.
Proof.
  intros req.
  destruct (X11_draft_mode_carries_over req Mem.world0 "hello") as (_ & H).
  eexists _, _. split; [right; left; reflexivity|].
  eapply (H "/posts/hello"); [reflexivity | right; left; reflexivity].
Defined.

(** A post form submitted without a title. *)
Lemma X14_witness :
  run_form Posts [("slug", "a-post"); ("content", "text")]
    (mkUI false VNull 0) Mem.world0
  = (Ok (mkUI false
           (VObj [("success", VBool false);
                  ("error", VStr "Missing required fields: title, slug, content, excerpt, author, category")])
           0),
     Mem.world0, []).
Proof.
  apply (X14_incomplete_form_stays_local Posts
           [("slug", "a-post"); ("content", "text")] (mkUI false VNull 0)
           Mem.world0 "title");
    [left; reflexivity | reflexivity].
Defined.


End FurtherRuns.
